(** * LISS4 pre-processing notebook: metadata parsing and DN-to-reflectance

    A shallow embedding of the code cells of [xarray_liss4_processing.ipynb]
    (the [BAND_META.txt] parser, the NoData masking and the radiometric
    correction) together with the properties stated about them.

    Conventions of the embedding.
    - A Python [str] is a [string]; its characters are the code points
      U+0000..U+00FF.
    - The [metadata] dict is a [gmap string string].
    - An exception that reaches the top level of a cell aborts the cell; it is
      the [inl] branch of [result].
    - A Python/NumPy float is an exact real number or one of the IEEE special
      values (infinities, NaN): the finite results of the array arithmetic
      are the exact real results.  The zenith angle is modelled a second
      time on binary64 numbers with their rounding ([Binary64],
      [Liss4Double]), for the elevation at which the exact cosine
      vanishes. *)

From Stdlib Require Import Ascii String NArith ZArith List Reals Lra Lia.
From Stdlib Require Import QArith Qreals Floats.SpecFloat.
From stdpp Require Import base option list gmap strings.

Local Open Scope N_scope.

(** ** Python built-ins used by the notebook *)

Module Py.

(** Exceptions the modelled cells can raise. *)
Inductive exn : Type :=
| ValueError
| KeyError.

Definition result (A : Type) : Type := (exn + A)%type.

Definition ok {A} (x : A) : result A := inr x.
Definition raise {A} (e : exn) : result A := inl e.

Definition bind {A B} (r : result A) (k : A -> result B) : result B :=
  match r with
  | inl e => inl e
  | inr x => k x
  end.

Definition is_ok {A} (r : result A) : bool :=
  match r with
  | inl _ => false
  | inr _ => true
  end.

(** [str.isspace] on one character, for code points below 256:
    TAB..CR, FS..US, SPACE, NEL and NBSP. *)
Definition isspace (c : ascii) : bool :=
  let n := N_of_ascii c in
  ((9 <=? n) && (n <=? 13)) || ((28 <=? n) && (n <=? 32))
  || (n =? 133) || (n =? 160).

(** [s.lstrip()] *)
Fixpoint lstrip (s : string) : string :=
  match s with
  | EmptyString => EmptyString
  | String c s' => if isspace c then lstrip s' else s
  end.

(** [s.rstrip()] *)
Fixpoint rstrip (s : string) : string :=
  match s with
  | EmptyString => EmptyString
  | String c s' =>
      match rstrip s' with
      | EmptyString => if isspace c then EmptyString else String c EmptyString
      | r => String c r
      end
  end.

(** [s.strip()] *)
Definition strip (s : string) : string := rstrip (lstrip s).

(** [s.split(sep)] for a one-character separator: the pieces between all
    the occurrences of [sep], so one more piece than occurrences. *)
Fixpoint split (sep : ascii) (s : string) : list string :=
  match s with
  | EmptyString => [EmptyString]
  | String c s' =>
      if Ascii.eqb c sep then EmptyString :: split sep s'
      else match split sep s' with
           | [] => [String c EmptyString] (* [split] is never empty *)
           | p :: ps => String c p :: ps
           end
  end.

(** [a, b = xs]: unpacking into exactly two targets. *)
Definition unpack2 {A} (xs : list A) : result (A * A) :=
  match xs with
  | [a; b] => ok (a, b)
  | _ => raise ValueError
  end.

(** Iterating over a text file: the lines, each with its terminating
    newline (the last line may have none). *)
Fixpoint readlines (s : string) : list string :=
  match s with
  | EmptyString => []
  | String c s' =>
      if Ascii.eqb c "010"%char then String c EmptyString :: readlines s'
      else match readlines s' with
           | [] => [String c EmptyString]
           | l :: ls => String c l :: ls
           end
  end.

(** Number of occurrences of a character. *)
Fixpoint count (c : ascii) (s : string) : nat :=
  match s with
  | EmptyString => O
  | String c' s' => if Ascii.eqb c' c then S (count c s') else count c s'
  end.

End Py.

Notation "'let!' x ':=' r 'in' k" := (Py.bind r (fun x => k))
  (at level 10, x pattern, r at level 200, k at level 200, only parsing).

(** ** The metadata cell

<<
metadata = {}
with open(metadata_filepath) as f:
  for line in f:
    key, value = line.split('=')
    metadata[key.strip()] = value.strip()
>>
*)

Module Metadata.
Import Py.

(** One iteration of the loop body on the dict built so far. *)
Definition parse_line (line : string) (metadata : gmap string string)
  : result (gmap string string) :=
  let! (key, value) := unpack2 (split "="%char line) in
  ok (<[strip key := strip value]> metadata).

(** The [for] loop on the dict bound to [metadata]: the dict when the loop
    ends and the exception that ended it, if any.  The first exception
    ends the loop; the dict keeps what the lines before it stored. *)
Fixpoint run_loop (lines : list string) (metadata : gmap string string)
  : gmap string string * option exn :=
  match lines with
  | [] => (metadata, None)
  | line :: rest =>
      match parse_line line metadata with
      | inr metadata' => run_loop rest metadata'
      | inl e => (metadata, Some e)
      end
  end.

(** What the loop hands to the statements after it: the dict, unless an
    exception was raised. *)
Definition parse_lines (lines : list string) (metadata : gmap string string)
  : result (gmap string string) :=
  match run_loop lines metadata with
  | (metadata', None) => ok metadata'
  | (_, Some e) => raise e
  end.

(** The cell up to the end of the [with] block, on the content of the file
    as the text layer delivers it (line ends translated to a newline). *)
Definition parse_metadata (text : string) : result (gmap string string) :=
  parse_lines (readlines text) ∅.

(** [metadata[k]] *)
Definition getitem (metadata : gmap string string) (k : string)
  : result string :=
  match metadata !! k with
  | Some v => ok v
  | None => raise KeyError
  end.

(** The whole cell: the dict and [scene_id = metadata['OTSProductID']]. *)
Definition metadata_cell (text : string)
  : result (gmap string string * string) :=
  let! metadata := parse_metadata text in
  let! scene_id := getitem metadata "OTSProductID" in
  ok (metadata, scene_id).

End Metadata.

Import Py Metadata.

(** ** Floating-point values

    A float is a finite real or an IEEE special value.  Multiplication and
    division follow the IEEE rules for the special values (a nonzero number
    over zero is an infinity, zero over zero is NaN, NaN is absorbing); no
    operation raises. *)

#[global] Instance R_eq_dec : EqDecision R := Req_dec_T.
#[global] Instance Rlt_decision (x y : R) : Decision (x < y)%R := Rlt_dec x y.

Module Float.

Inductive float : Type :=
| Fin (x : R)
| Inf (neg : bool)
| NaN.

(** Sign bit of a finite number. *)
Definition signbit (x : R) : bool := bool_decide (x < 0)%R.

Definition mul (a b : float) : float :=
  match a, b with
  | NaN, _ | _, NaN => NaN
  | Fin x, Fin y => Fin (x * y)
  | Fin x, Inf s | Inf s, Fin x =>
      if decide (x = 0%R) then NaN else Inf (xorb s (signbit x))
  | Inf s, Inf t => Inf (xorb s t)
  end.

Definition div (a b : float) : float :=
  match a, b with
  | NaN, _ | _, NaN => NaN
  | Fin x, Fin y =>
      if decide (y = 0%R)
      then (if decide (x = 0%R) then NaN else Inf (signbit x))
      else Fin (x / y)
  | Fin _, Inf _ => Fin 0
  | Inf s, Fin y => Inf (xorb s (signbit y))
  | Inf _, Inf _ => NaN
  end.

(** Conversion of an integer sample. *)
Definition of_int (z : Z) : float := Fin (IZR z).

Definition isfinite (a : float) : bool :=
  match a with Fin _ => true | _ => false end.

End Float.

(** ** Arrays

    A band raster is a grid of rows of samples.  The scene is a
    [DataArray] with the dimensions (band, y, x), the band coordinate being
    one of the three labels the notebook assigns.  The three rasters are
    taken on one grid, as the notebook reads them. *)

Module Xr.
Import Float.

Abbreviation grid A := (list (list A)).

(** Elementwise application. *)
Definition amap {A B} (f : A -> B) (g : grid A) : grid B := map (map f) g.

Definition amap2 {A B C} (f : A -> B -> C) (g : grid A) (h : grid B)
  : grid C :=
  zip_with (zip_with f) g h.

(** The sample at row [r], column [c]. *)
Definition at_ {A} (g : grid A) (r c : nat) : option A :=
  g !! r ≫= (.!! c).

Inductive band : Type := BAND2 | BAND3 | BAND4.

Definition DataArray (A : Type) : Type := band -> grid A.

(** [xr.concat([a2, a3, a4], dim='band').assign_coords(
      band=['BAND2', 'BAND3', 'BAND4'])], for arrays on one grid: their
    coordinates being equal, the alignment changes none of them. *)
Definition concat {A} (a2 a3 a4 : grid A) : DataArray A :=
  fun b => match b with BAND2 => a2 | BAND3 => a3 | BAND4 => a4 end.

(** [a.sel(band=b)] *)
Definition sel {A} (a : DataArray A) (b : band) : grid A := a b.

(** [a != 0] *)
Definition ne0 (a : DataArray Z) : DataArray bool :=
  fun b => amap (fun x => negb (x =? 0)%Z) (a b).

(** [a.where(cond)]: the sample where [cond] holds, NaN elsewhere. *)
Definition where_ (a : DataArray Z) (cond : DataArray bool)
  : DataArray float :=
  fun b => amap2 (fun x (c : bool) => if c then of_int x else NaN)
             (a b) (cond b).

(** Arithmetic between an array and a scalar. *)
Definition mul_s (a : grid float) (s : R) : grid float :=
  amap (fun x => mul x (Fin s)) a.
Definition s_mul (s : R) (a : grid float) : grid float :=
  amap (fun x => mul (Fin s) x) a.
Definition div_s (a : grid float) (s : R) : grid float :=
  amap (fun x => div x (Fin s)) a.

End Xr.

Infix "*^" := Xr.mul_s (at level 40, left associativity).
Infix "^*" := Xr.s_mul (at level 40, left associativity).
Infix "/^" := Xr.div_s (at level 40, left associativity).

(** ** The correction cells *)

Module Liss4.
Import Float Xr.

(** [math.radians] *)
Definition radians (x : R) : R := (x * (PI / 180))%R.

(** Saturation radiance and exo-atmospheric solar irradiance per band. *)
Definition b2_sr : R := 53.0.
Definition b3_sr : R := 47.0.
Definition b4_sr : R := 31.5.

Definition b2_esun : R := 181.89.
Definition b3_esun : R := 156.96.
Definition b4_esun : R := 110.48.

Definition pi : R := PI.

Section Correction.
(** The three rasters read from [BAND2.tif], [BAND3.tif], [BAND4.tif],
    the value of [float(sun_elevation_angle)] and the Earth-Sun
    distance [sun.earth_distance]. *)
Variables b2_ds b3_ds b4_ds : grid Z.
Variable sun_elevation_angle : R.
Variable d : R.

(** [xr.concat([b2_ds, b3_ds, b4_ds], dim='band').assign_coords(..)], the
    first value of [scene]. *)
Definition stacked : DataArray Z := concat b2_ds b3_ds b4_ds.

(** [scene = scene.where(scene != 0)] *)
Definition scene : DataArray float := where_ stacked (ne0 stacked).

Definition sun_zenith_angle : R := (90 - sun_elevation_angle)%R.
Definition sun_zenith_angle_rad : R := radians sun_zenith_angle.

Definition b2_dn : grid float := sel scene BAND2.
Definition b3_dn : grid float := sel scene BAND3.
Definition b4_dn : grid float := sel scene BAND4.

Definition b2_rad : grid float := b2_dn *^ b2_sr /^ 1024.
Definition b3_rad : grid float := b3_dn *^ b3_sr /^ 1024.
Definition b4_rad : grid float := b4_dn *^ b4_sr /^ 1024.

Definition b2_ref : grid float :=
  (pi ^* b2_rad *^ d *^ d) /^ (b2_esun * cos sun_zenith_angle_rad).
Definition b3_ref : grid float :=
  (pi ^* b3_rad *^ d *^ d) /^ (b3_esun * cos sun_zenith_angle_rad).
Definition b4_ref : grid float :=
  (pi ^* b4_rad *^ d *^ d) /^ (b4_esun * cos sun_zenith_angle_rad).

(** [scene_ref = xr.concat(reflectance_bands, dim='band').assign_coords(..)] *)
Definition scene_ref : DataArray float := concat b2_ref b3_ref b4_ref.

End Correction.

End Liss4.

(** ** The zenith angle on doubles

    [90 - float(sun_elevation_angle)] and [math.radians] work on doubles.
    Where the exact cosine of the zenith angle vanishes, what the cells
    compute depends on the rounding of the angle, so the angle is also
    modelled on binary64 numbers: a [spec_float] of the Standard Library,
    with its operations at a precision of 53 bits (round to nearest, ties to
    even).  [math.pi] is the double next to pi and [math.radians(x)] is
    [x * (math.pi / 180.0)].  [math.cos] is the cosine of the C library,
    which returns a double next to the cosine of its argument: it is
    modelled by the exact cosine of the double it is given, and raises
    [ValueError] on an infinity.  The products and the quotient that follow
    are those of [Float]. *)

Module Binary64.
Import Py Float.

Definition prec : Z := 53.
Definition emax : Z := 1024.

(** The double of an [int]. *)
Definition of_int (z : Z) : spec_float := binary_normalize prec emax z 0 false.

Definition sub : spec_float -> spec_float -> spec_float := SFsub prec emax.
Definition mul : spec_float -> spec_float -> spec_float := SFmul prec emax.
Definition div : spec_float -> spec_float -> spec_float := SFdiv prec emax.

(** The real number a finite double stands for. *)
Definition pow2 (e : Z) : R :=
  match e with
  | Z0 => 1%R
  | Zpos p => IZR (2 ^ Zpos p)
  | Zneg p => (/ IZR (2 ^ Zpos p))%R
  end.

Definition B2R (x : spec_float) : R :=
  match x with
  | S754_finite s m e => (IZR (if s then Zneg m else Zpos m) * pow2 e)%R
  | _ => 0%R
  end.

(** [math.pi], the double 0x1.921fb54442d18p+1. *)
Definition math_pi : spec_float := S754_finite false 7074237752028440 (-51).

(** [math.radians] *)
Definition degToRad : spec_float := div math_pi (of_int 180).
Definition math_radians (x : spec_float) : spec_float := mul x degToRad.

(** [math.cos] *)
Definition math_cos (x : spec_float) : result float :=
  match x with
  | S754_infinity _ => raise ValueError
  | S754_nan => ok NaN
  | _ => ok (Fin (cos (B2R x)))
  end.

End Binary64.

(** The cells of the zenith angle and of the reflectance, the angle being a
    double. *)

Module Liss4Double.
Import Py Float Xr Binary64.

(** Division of an array by a scalar that may be a special value. *)
Definition div_f (a : grid float) (s : float) : grid float :=
  amap (fun x => Float.div x s) a.

Section Correction.
Variables b2_ds b3_ds b4_ds : grid Z.
(** The value of [float(sun_elevation_angle)]. *)
Variable sun_elevation_angle : spec_float.
Variable d : R.

Definition sun_zenith_angle : spec_float :=
  sub (of_int 90) sun_elevation_angle.
Definition sun_zenith_angle_rad : spec_float :=
  math_radians sun_zenith_angle.

(** The divisor [esun * math.cos(sun_zenith_angle_rad)] of a band. *)
Definition divisor (esun : R) : result float :=
  let! c := math_cos sun_zenith_angle_rad in
  ok (Float.mul (Fin esun) c).

Definition b2_ref : result (grid float) :=
  let! s := divisor Liss4.b2_esun in
  ok (div_f (Liss4.pi ^* Liss4.b2_rad b2_ds b3_ds b4_ds *^ d *^ d) s).
Definition b3_ref : result (grid float) :=
  let! s := divisor Liss4.b3_esun in
  ok (div_f (Liss4.pi ^* Liss4.b3_rad b2_ds b3_ds b4_ds *^ d *^ d) s).
Definition b4_ref : result (grid float) :=
  let! s := divisor Liss4.b4_esun in
  ok (div_f (Liss4.pi ^* Liss4.b4_rad b2_ds b3_ds b4_ds *^ d *^ d) s).

(** The reflectance cell of band [i]. *)
Definition band_ref (i : band) : result (grid float) :=
  match i with BAND2 => b2_ref | BAND3 => b3_ref | BAND4 => b4_ref end.

Definition scene_ref : result (DataArray float) :=
  let! r2 := b2_ref in
  let! r3 := b3_ref in
  let! r4 := b4_ref in
  ok (concat r2 r3 r4).

End Correction.

End Liss4Double.

(** Partial sums, in rational numbers, of the series of
    [pi / 4 = 2 * atan (1 / 3) + atan (1 / 7)]. *)

Module MachinQ.

Fixpoint qpow (x : Q) (n : nat) : Q :=
  match n with O => 1%Q | S k => (x * qpow x k)%Q end.

Definition ratan_term (x : Q) (n : nat) : Q :=
  (qpow x (2 * n + 1) / inject_Z (Z.of_nat (2 * n + 1)))%Q.

Definition machin_term (n : nat) : Q :=
  (2 * ratan_term (1 # 3) n + ratan_term (1 # 7) n)%Q.

Definition sign (n : nat) : Q := if Nat.even n then 1%Q else (-1)%Q.

Fixpoint machin_sum (n : nat) : Q :=
  match n with
  | O => machin_term 0
  | S k => (machin_sum k + sign n * machin_term n)%Q
  end.

End MachinQ.

(** ** Notions used to state the properties of the parser *)

Module MetaSpec.
Import Py Metadata.

(** Splitting at the first occurrence of the separator, when there is one:
    the text before it and everything after it. *)
Fixpoint partition (sep : ascii) (s : string) : option (string * string) :=
  match s with
  | EmptyString => None
  | String c s' =>
      if Ascii.eqb c sep then Some (EmptyString, s')
      else match partition sep s' with
           | Some (k, v) => Some (String c k, v)
           | None => None
           end
  end.

(** A string of whitespace only. *)
Fixpoint blank (s : string) : bool :=
  match s with
  | EmptyString => true
  | String c s' => isspace c && blank s'
  end.

(** The key/value pair a line stands for: both sides of the first [=],
    trimmed. *)
Definition entry (line : string) : option (string * string) :=
  match partition "="%char line with
  | Some (k, v) => Some (strip k, strip v)
  | None => None
  end.

Definition entries (lines : list string) : list (string * string) :=
  omap entry lines.

(** The value of the last pair with key [k]. *)
Fixpoint last_occurrence (k : string) (kvs : list (string * string))
  : option string :=
  match kvs with
  | [] => None
  | (k', v) :: rest =>
      match last_occurrence k rest with
      | Some v' => Some v'
      | None => if decide (k' = k) then Some v else None
      end
  end.

(** Valid metadata: each line has one [=]. *)
Definition valid (lines : list string) : Prop :=
  Forall (fun line => count "="%char line = 1%nat) lines.

End MetaSpec.

Import MetaSpec.

(** ** Notions used to state the properties of the correction *)

Declare Scope flt_scope.
Delimit Scope flt_scope with flt.
Infix "*" := Float.mul : flt_scope.
Infix "/" := Float.div : flt_scope.

Module RadSpec.
Import Float Xr Liss4.

(** The calibration constants of band [i]. *)
Definition SR (i : band) : R :=
  match i with BAND2 => b2_sr | BAND3 => b3_sr | BAND4 => b4_sr end.

Definition ESUN (i : band) : R :=
  match i with BAND2 => b2_esun | BAND3 => b3_esun | BAND4 => b4_esun end.

(** The digital number of a source sample: missing for the NoData value. *)
Definition DN (sample : Z) : float :=
  if (sample =? 0)%Z then NaN else of_int sample.

(** [radiance_i = DN_i * SR_i / 1024] *)
Definition radiance (i : band) (DN_i : float) : float :=
  (DN_i * Fin (SR i) / Fin 1024)%flt.

(** [zenith_rad = radians(90 - sun_elevation_degrees)] *)
Definition zenith_rad (e : R) : R := ((90 - e) * PI / 180)%R.

(** [reflectance_i = (pi * radiance_i * d^2) / (ESUN_i * cos(zenith_rad))] *)
Definition reflectance (i : band) (d e : R) (radiance_i : float) : float :=
  (Fin PI * radiance_i * Fin (d ^ 2) / Fin (ESUN i * cos (zenith_rad e)))%flt.

(** The three radiance rasters under their band labels. *)
Definition scene_rad (b2_ds b3_ds b4_ds : grid Z) : DataArray float :=
  concat (b2_rad b2_ds b3_ds b4_ds) (b3_rad b2_ds b3_ds b4_ds)
    (b4_rad b2_ds b3_ds b4_ds).

(** Doubling every sample of a raster. *)
Definition doubled (g : grid Z) : grid Z := amap (Z.mul 2) g.

(** Evaluation of a pointwise transform [f] under an explicit schedule:
    the samples are computed one at a time, in the order in which the
    schedule lists their positions, each result being written at its
    position of the output buffer. *)
Definition write {A} (out : grid A) (r c : nat) (x : A) : grid A :=
  match out !! r with
  | Some row => <[r := <[c := x]> row]> out
  | None => out
  end.

Definition run_schedule {A B} (f : A -> B) (src : grid A)
    (schedule : list (nat * nat)) (out : grid B) : grid B :=
  foldl (fun out '(r, c) =>
           match at_ src r c with
           | Some x => write out r c (f x)
           | None => out
           end) out schedule.

(** A schedule that visits every position of the grid (in any order, and
    possibly more than once). *)
Definition covers {A} (schedule : list (nat * nat)) (src : grid A) : Prop :=
  forall r c, is_Some (at_ src r c) -> (r, c) ∈ schedule.

(** An output buffer of the shape of the source. *)
Definition same_shape {A B} (g : grid A) (h : grid B) : Prop :=
  Forall2 (fun row row' => length row = length row') g h.

End RadSpec.

Import Float Xr Liss4 RadSpec.

(** ** Text, as the statements about the parser need it *)

Module Text.

(** [''.join(pieces)] *)
Fixpoint concat_str (pieces : list string) : string :=
  match pieces with
  | [] => EmptyString
  | p :: rest => p +:+ concat_str rest
  end.

(** [s.startswith(c)] and [s.endswith(c)] for a one-character [c]. *)
Definition startswith (c : ascii) (s : string) : bool :=
  match s with
  | EmptyString => false
  | String a _ => Ascii.eqb a c
  end.

Fixpoint endswith (c : ascii) (s : string) : bool :=
  match s with
  | EmptyString => false
  | String a s' =>
      match s' with
      | EmptyString => Ascii.eqb a c
      | String _ _ => endswith c s'
      end
  end.

(** The newline character. *)
Definition nl : ascii := "010"%char.

End Text.

(** ** Metadata text written out

    A line of the file is a key and a value with the whitespace that
    surrounds them; a file is its lines, each ended by a newline, the last
    one possibly without. *)

Module Render.
Import Py Text MetaSpec.

Record mline : Type := {
  lead : string;       (* whitespace before the key *)
  mkey : string;
  before_eq : string;  (* whitespace between the key and the [=] *)
  after_eq : string;   (* whitespace between the [=] and the value *)
  mvalue : string;
  trail : string       (* whitespace after the value *)
}.

Fixpoint last_char (s : string) : option ascii :=
  match s with
  | EmptyString => None
  | String c s' =>
      match s' with
      | EmptyString => Some c
      | String _ _ => last_char s'
      end
  end.

(** No whitespace at either end. *)
Definition trimmed (s : string) : bool :=
  match s with
  | EmptyString => true
  | String c _ =>
      negb (isspace c)
      && match last_char s with
         | Some z => negb (isspace z)
         | None => true
         end
  end.

Definition without (c : ascii) (s : string) : bool := Nat.eqb (count c s) 0.

(** Whitespace inside a line. *)
Definition pad (w : string) : bool := blank w && without nl w.

(** The text of a key or of a value. *)
Definition word (s : string) : bool :=
  trimmed s && without "="%char s && without nl s.

Definition wf (l : mline) : bool :=
  pad (lead l) && word (mkey l) && pad (before_eq l)
  && pad (after_eq l) && word (mvalue l) && pad (trail l).

Definition render_line (l : mline) : string :=
  lead l +:+ mkey l +:+ before_eq l +:+ "=" +:+ after_eq l +:+ mvalue l
  +:+ trail l.

Fixpoint render (final_newline : bool) (lines : list mline) : string :=
  match lines with
  | [] => EmptyString
  | l :: rest =>
      match rest with
      | [] => render_line l
              +:+ (if final_newline then String nl "" else EmptyString)
      | _ :: _ => render_line l +:+ String nl (render final_newline rest)
      end
  end.


End Render.

(** ** Rasters with their coordinates

    A raster as [rxr.open_rasterio] returns it: the samples with the
    coordinates of their rows and columns.  [xr.concat] aligns its
    arguments on these coordinates; the cells are modelled for rasters on
    one grid, where the alignment leaves every raster as it is. *)

Module Georef.
Import Xr.

Record raster : Type := {
  ycoords : list R;
  xcoords : list R;
  values : grid Z
}.

(** A grid of [ny] rows of [nx] samples. *)
Definition on_grid {A} (ny nx : nat) (g : grid A) : Prop :=
  length g = ny /\ Forall (fun row => length row = nx) g.

(** The samples fill the grid of the coordinates. *)
Definition fills (r : raster) : Prop :=
  on_grid (length (ycoords r)) (length (xcoords r)) (values r).

(** The three rasters have the same coordinates. *)
Definition one_grid (r2 r3 r4 : raster) : Prop :=
  ycoords r3 = ycoords r2 /\ ycoords r4 = ycoords r2
  /\ xcoords r3 = xcoords r2 /\ xcoords r4 = xcoords r2
  /\ fills r2 /\ fills r3 /\ fills r4.

End Georef.

(** ** The extraction cell and the paths of the scene files

<<
with zipfile.ZipFile(liss4_zip) as zf:
  foldername = [info.filename for info in zf.infolist() if info.is_dir()][0]
  zf.extractall()
>>
    with [os.path] being [posixpath]. *)

Module Unzip.
Import Text.

(** A member of the archive, by its name. *)
Record ZipInfo : Type := { filename : string }.

(** [info.is_dir()]: the name ends with a slash. *)
Definition is_dir (info : ZipInfo) : bool := endswith "/"%char (filename info).

Inductive index_error : Type := IndexError.

(** [xs[0]] *)
Definition getitem0 {A} (xs : list A) : index_error + A :=
  match xs with
  | [] => inl IndexError
  | x :: _ => inr x
  end.

Definition foldername (infolist : list ZipInfo) : index_error + string :=
  getitem0 (map filename (filter (fun info => is_dir info = true) infolist)).

(** [os.path.join(a, b)] *)
Definition join (a b : string) : string :=
  if startswith "/"%char b then b
  else if (match a with EmptyString => true | _ => false end)
          || endswith "/"%char a
       then a +:+ b
       else a +:+ "/" +:+ b.

Definition metadata_filepath (foldername : string) : string :=
  join foldername "BAND_META.txt".
Definition b2_path (foldername : string) : string :=
  join foldername "BAND2.tif".
Definition b3_path (foldername : string) : string :=
  join foldername "BAND3.tif".
Definition b4_path (foldername : string) : string :=
  join foldername "BAND4.tif".

End Unzip.

(** ** The output cells

<<
output_ds = scene_ref.to_dataset('band')
output_file = f'{scene_id}.tif'
output_ds[['BAND2', 'BAND3', 'BAND4']].rio.to_raster(output_file, ..)
>>
    A dataset is the list of its named variables, in their order. *)

Module Output.
Import Py Float Xr Liss4.

Definition label (b : band) : string :=
  match b with BAND2 => "BAND2" | BAND3 => "BAND3" | BAND4 => "BAND4" end.

(** [a.to_dataset('band')]: one variable per band label. *)
Definition to_dataset {A} (a : DataArray A) : list (string * grid A) :=
  map (fun b => (label b, a b)) [BAND2; BAND3; BAND4].

(** [ds[name]] *)
Fixpoint variable {A} (ds : list (string * grid A)) (name : string)
  : result (grid A) :=
  match ds with
  | [] => raise KeyError
  | (n, g) :: rest => if String.eqb n name then ok g else variable rest name
  end.

(** [ds[[n1, n2, ..]]]: the named variables, in the order asked. *)
Fixpoint select {A} (ds : list (string * grid A)) (names : list string)
  : result (list (string * grid A)) :=
  match names with
  | [] => ok []
  | n :: rest =>
      let! g := variable ds n in
      let! layers := select ds rest in
      ok ((n, g) :: layers)
  end.

Definition output_file (scene_id : string) : string := scene_id +:+ ".tif".

(** The layers handed to [rio.to_raster]. *)
Definition output_layers (b2_ds b3_ds b4_ds : grid Z)
    (sun_elevation_angle d : R) : result (list (string * grid float)) :=
  select (to_dataset (scene_ref b2_ds b3_ds b4_ds sun_elevation_angle d))
    ["BAND2"; "BAND3"; "BAND4"].

End Output.

(** Case analysis on [decide (2 = 0)] in the doubling lemmas. *)
Ltac two_nonzero :=
  destruct (decide (2 = 0)%R) as [?|_]; [lra|].

(** ** The built-ins and the parser on examples *)

Example readlines_ex :
  readlines "A= 1
B = 2" = ["A= 1
"; "B = 2"].
Proof. reflexivity. Qed.

Example split_ex : split "="%char "a=b=c" = ["a"; "b"; "c"].
Proof. reflexivity. Qed.

Example strip_ex : strip "  a b
" = "a b".
Proof. reflexivity. Qed.

Example parse_ex :
  parse_metadata "ProductID= 2326285231
DateOfPass= 04-MAR-2023
" = ok (<["DateOfPass" := "04-MAR-2023"]> (<["ProductID" := "2326285231"]> ∅)).
Proof. reflexivity. Qed.

Example parse_bad : parse_metadata "a=b=c" = raise ValueError.
Proof. reflexivity. Qed.

Example run_loop_ex :
  run_loop ["A= 1
"; "no separator
"; "B= 2
"] ∅ = (<["A" := "1"]> ∅, Some ValueError).
Proof. reflexivity. Qed.

Example cell_ex :
  metadata_cell "OTSProductID= RAF20FEB2023
DateOfPass= 20-FEB-2023" = ok (<["DateOfPass" := "20-FEB-2023"]>
                              (<["OTSProductID" := "RAF20FEB2023"]> ∅),
                              "RAF20FEB2023").
Proof. reflexivity. Qed.

Example cell_no_id : metadata_cell "DateOfPass= 20-FEB-2023" = raise KeyError.
Proof. reflexivity. Qed.

(** ** The correction on examples *)

Example scene_ex :
  scene [[1024; 0]]%Z [[5; 6]]%Z [[0; 9]]%Z BAND2 = [[Fin 1024; NaN]].
Proof. reflexivity. Qed.

Example b2_rad_ex :
  b2_rad [[1024; 0]]%Z [[5; 6]]%Z [[0; 9]]%Z = [[Fin 53; NaN]].
Proof.
  unfold b2_rad, b2_dn, sel, mul_s, div_s. rewrite scene_ex. simpl.
  rewrite decide_False by lra. do 3 f_equal. unfold b2_sr. lra.
Qed.

Example b2_ref_ex :
  b2_ref [[1024; 0]]%Z [[5; 6]]%Z [[0; 9]]%Z 90 1
  = [[Fin (PI * 53 / 181.89); NaN]].
Proof.
  unfold b2_ref, mul_s, div_s, s_mul. rewrite b2_rad_ex.
  assert (cos (sun_zenith_angle_rad 90) = 1%R) as ->.
  { unfold sun_zenith_angle_rad, sun_zenith_angle, radians.
    replace ((90 - 90) * (PI / 180))%R with 0%R by lra. apply cos_0. }
  simpl. rewrite decide_False by (unfold b2_esun; lra).
  do 3 f_equal. unfold pi, b2_esun. field. lra.
Qed.

(** ** Strings *)

Section StringLemmas.

Lemma app_cons (c : ascii) (s t : string) :
  String c s +:+ t = String c (s +:+ t).
Proof. reflexivity. Qed.

Lemma app_empty_l (t : string) : "" +:+ t = t.
Proof. reflexivity. Qed.

Lemma str_app_assoc (s t u : string) : (s +:+ t) +:+ u = s +:+ t +:+ u.
Proof.
  induction s as [|a s IH]; [done|]. rewrite !app_cons. by f_equal.
Qed.

Lemma count_app (c : ascii) (s t : string) :
  count c (s +:+ t) = (count c s + count c t)%nat.
Proof.
  induction s as [|a s IH]; [done|].
  rewrite app_cons. simpl. destruct (Ascii.eqb a c); simpl; lia.
Qed.

Lemma isspace_not_eq (c : ascii) : isspace c = true -> Ascii.eqb c "=" = false.
Proof.
  destruct (Ascii.eqb_spec c "="%char) as [->|]; [|done].
  vm_compute. discriminate.
Qed.

Lemma blank_count (w : string) : blank w = true -> count "="%char w = 0%nat.
Proof.
  induction w as [|c w IH]; [done|]. simpl.
  intros [Hc Hw]%andb_true_iff. rewrite (isspace_not_eq _ Hc). auto.
Qed.

Lemma lstrip_blank (w s : string) :
  blank w = true -> lstrip (w +:+ s) = lstrip s.
Proof.
  induction w as [|c w IH]; [done|]. cbn [blank].
  intros [Hc Hw]%andb_true_iff. rewrite app_cons. cbn [lstrip].
  rewrite Hc. auto.
Qed.

Lemma rstrip_blank (w : string) : blank w = true -> rstrip w = "".
Proof.
  induction w as [|c w IH]; [done|]. simpl.
  intros [Hc Hw]%andb_true_iff. by rewrite (IH Hw), Hc.
Qed.

Lemma rstrip_app_blank (s w : string) :
  blank w = true -> rstrip (s +:+ w) = rstrip s.
Proof.
  intros Hw. induction s as [|c s IH].
  - rewrite app_empty_l. by apply rstrip_blank.
  - rewrite app_cons. simpl. by rewrite IH.
Qed.

Lemma strip_app_blank (s w : string) :
  blank w = true -> strip (s +:+ w) = strip s.
Proof.
  intros Hw. unfold strip. induction s as [|c s IH].
  - rewrite app_empty_l. simpl.
    assert (lstrip w = "") as ->; [|done].
    clear -Hw. induction w as [|c w IH]; [done|]. simpl in *.
    apply andb_true_iff in Hw as [-> Hw]. auto.
  - rewrite app_cons. cbn [lstrip]. destruct (isspace c); [done|].
    change (String c (s +:+ w)) with (String c s +:+ w).
    by apply rstrip_app_blank.
Qed.

(** Whitespace on either side does not change what [strip] returns. *)
Lemma strip_padded (a s b : string) :
  blank a = true -> blank b = true -> strip (a +:+ s +:+ b) = strip s.
Proof.
  intros Ha Hb. unfold strip. rewrite lstrip_blank by done.
  by apply strip_app_blank.
Qed.

Lemma split_length (c : ascii) (s : string) :
  length (split c s) = S (count c s).
Proof.
  induction s as [|a s IH]; [done|]. simpl.
  destruct (Ascii.eqb a c); simpl; [by rewrite IH|].
  destruct (split c s); simpl in *; lia.
Qed.

Lemma split_none (c : ascii) (s : string) :
  count c s = 0%nat -> split c s = [s].
Proof.
  induction s as [|a s IH]; [done|]. simpl.
  destruct (Ascii.eqb a c); [done|]. intros H. by rewrite IH.
Qed.

(** At a separator the pieces of both sides are put side by side. *)
Lemma split_app_sep (c : ascii) (s t : string) :
  split c (s +:+ String c t) = split c s ++ split c t.
Proof.
  induction s as [|a s IH].
  - rewrite app_empty_l. simpl. by rewrite Ascii.eqb_refl.
  - rewrite app_cons. simpl. destruct (Ascii.eqb a c).
    + by rewrite IH.
    + rewrite IH. pose proof (split_length c s) as Hl.
      destruct (split c s); [done|]. done.
Qed.

(** With one separator, [split] is the split at the first one. *)
Lemma split_one (c : ascii) (s : string) :
  count c s = 1%nat ->
  exists k v, partition c s = Some (k, v) /\ split c s = [k; v].
Proof.
  induction s as [|a s IH]; [done|]. simpl.
  destruct (Ascii.eqb a c).
  - intros [= H]. exists "", s. by rewrite (split_none _ _ H).
  - intros H. destruct (IH H) as (k & v & -> & ->). by exists (String a k), v.
Qed.

Lemma partition_count (c : ascii) (s : string) :
  is_Some (partition c s) <-> (1 <= count c s)%nat.
Proof.
  induction s as [|a s IH]; simpl.
  - split; [by intros [? ?]|lia].
  - destruct (Ascii.eqb a c).
    + split; [lia|eauto].
    + rewrite <- IH. destruct (partition c s) as [[k v]|]; split;
        intros [? ?]; by eauto.
Qed.

Lemma unpack2_split (c : ascii) (s : string) :
  count c s <> 1%nat -> unpack2 (split c s) = raise ValueError.
Proof.
  intros H. pose proof (split_length c s) as Hl.
  destruct (split c s) as [|x [|y [|z l]]]; simpl in *; try done. lia.
Qed.

End StringLemmas.

(** ** The metadata parser *)

Section ParserLemmas.
Implicit Types (line : string) (lines : list string).
Implicit Types (m : gmap string string).

Lemma parse_line_one line m k v :
  count "="%char line = 1%nat ->
  partition "="%char line = Some (k, v) ->
  parse_line line m = ok (<[strip k := strip v]> m).
Proof.
  intros H1 Hp. destruct (split_one _ _ H1) as (k' & v' & Hp' & Hs).
  rewrite Hp in Hp'. injection Hp' as <- <-.
  unfold parse_line. by rewrite Hs.
Qed.

Lemma parse_line_err line m :
  count "="%char line <> 1%nat -> parse_line line m = raise ValueError.
Proof. intros H. unfold parse_line. by rewrite unpack2_split. Qed.

Lemma parse_line_entry line m :
  count "="%char line = 1%nat ->
  exists k v, entry line = Some (k, v) /\ parse_line line m = ok (<[k := v]> m).
Proof.
  intros H1. destruct (split_one _ _ H1) as (k & v & Hp & Hs).
  exists (strip k), (strip v). split.
  - unfold entry. by rewrite Hp.
  - by apply parse_line_one.
Qed.

Lemma entries_cons line lines :
  entries (line :: lines)
  = match entry line with
    | Some kv => kv :: entries lines
    | None => entries lines
    end.
Proof. reflexivity. Qed.

Lemma parse_lines_nil m : parse_lines [] m = ok m.
Proof. reflexivity. Qed.

Lemma parse_lines_cons line lines m :
  parse_lines (line :: lines) m
  = bind (parse_line line m) (parse_lines lines).
Proof.
  unfold parse_lines. simpl. by destruct (parse_line line m).
Qed.

(** The only exception the loop raises is [ValueError]. *)
Lemma parse_lines_exn lines m e :
  parse_lines lines m = raise e -> e = ValueError.
Proof.
  revert m. induction lines as [|line rest IH]; intros m; [done|].
  rewrite parse_lines_cons.
  destruct (decide (count "="%char line = 1%nat)) as [H1|H1].
  - destruct (parse_line_entry line m H1) as (k & v & _ & ->). apply IH.
  - rewrite parse_line_err by done. by intros [= <-].
Qed.

Lemma parse_lines_invalid lines m :
  ~ valid lines -> parse_lines lines m = raise ValueError.
Proof.
  intros Hv. destruct (parse_lines lines m) as [e|m'] eqn:Hp.
  - by rewrite (parse_lines_exn _ _ _ Hp).
  - exfalso. apply Hv. clear Hv. revert m Hp.
    induction lines as [|line rest IH]; intros m; [by constructor|].
    rewrite parse_lines_cons.
    destruct (decide (count "="%char line = 1%nat)) as [H1|H1].
    + destruct (parse_line_entry line m H1) as (k & v & _ & ->). simpl.
      intros Hp. constructor; [done|]. by eapply IH.
    + by rewrite parse_line_err.
Qed.

(** On valid lines the loop ends normally, and each key is bound to the
    value of its last line (or keeps the binding it had). *)
Lemma parse_lines_valid lines m :
  valid lines ->
  exists m', parse_lines lines m = ok m' /\
    forall k, m' !! k = match last_occurrence k (entries lines) with
                        | Some v => Some v
                        | None => m !! k
                        end.
Proof.
  intros Hv. revert m. induction Hv as [|line rest H1 _ IH]; intros m.
  - by exists m.
  - destruct (parse_line_entry line m H1) as (k & v & He & Hl).
    destruct (IH (<[k := v]> m)) as (m' & Hm' & Hlook).
    exists m'. split; [by rewrite parse_lines_cons, Hl|].
    intros k0. rewrite Hlook, entries_cons, He. simpl.
    destruct (last_occurrence k0 (entries rest)); [done|].
    case_decide; simplify_map_eq; done.
Qed.

Lemma last_occurrence_Some k (kvs : list (string * string)) :
  is_Some (last_occurrence k kvs) <-> k ∈ kvs.*1.
Proof.
  induction kvs as [|[k' v] kvs IH]; simpl.
  - split; [by intros [? ?]|by intros ?%elem_of_nil].
  - rewrite elem_of_cons, <- IH.
    destruct (last_occurrence k kvs) as [v'|].
    + split; eauto.
    + case_decide as Hk.
      * split; eauto.
      * split; [by intros [? ?]|]. intros [->|[? ?]]; done.
Qed.


(** The state of the loop when it meets a line it cannot unpack. *)
Lemma run_loop_prefix (pre post : list string) (bad : string) m m_pre :
  parse_lines pre m = ok m_pre ->
  count "="%char bad <> 1%nat ->
  run_loop (pre ++ bad :: post) m = (m_pre, Some ValueError).
Proof.
  revert m. induction pre as [|line pre IH]; intros m Hpre Hbad.
  - injection Hpre as <-. simpl. by rewrite parse_line_err.
  - rewrite parse_lines_cons in Hpre. simpl.
    destruct (parse_line line m) as [e|m1]; [done|]. by apply IH.
Qed.


(** X8: the loop stops at the first line it cannot unpack: the lines after
    it are not read, and the dict holds what the lines before it stored. *)
Lemma run_loop_stops (pre post : list string) (bad : string) m m_pre :
  parse_lines pre m = ok m_pre ->
  count "="%char bad <> 1%nat ->
  run_loop (pre ++ bad :: post) m = (m_pre, Some ValueError).
Proof. apply run_loop_prefix. Qed.

End ParserLemmas.

(** C10: when some line has two or more [=], the parser raises
    [ValueError]; and parsing ends normally exactly when every line has
    exactly one [=]. *)
Theorem parse_metadata_ok_iff_one_eq (text : string) :
  (forall line, line ∈ readlines text -> (2 <= count "="%char line)%nat ->
     parse_metadata text = raise ValueError)
  /\ (is_ok (parse_metadata text) = true <->
      forall line, line ∈ readlines text -> count "="%char line = 1%nat).
Proof.
  split.
  - intros line Hin H2. apply parse_lines_invalid. intros Hv.
    unfold valid in Hv. rewrite Forall_forall in Hv.
    specialize (Hv _ Hin). lia.
  - fold (valid (readlines text)). unfold valid. rewrite <- Forall_forall.
    fold (valid (readlines text)). split.
    + intros Hok. destruct (decide (valid (readlines text))) as [|Hn]; [done|].
      unfold parse_metadata in Hok. by rewrite parse_lines_invalid in Hok.
    + intros Hv. destruct (parse_lines_valid _ ∅ Hv) as (m & Hm & _).
      unfold parse_metadata. by rewrite Hm.
Qed.

Lemma parse_metadata_ok_iff_one_eq_witness :
  parse_metadata "K= a=b
" = raise ValueError.
Proof.
  apply (proj1 (parse_metadata_ok_iff_one_eq _) "K= a=b
"); [|simpl; lia].
  simpl. apply list_elem_of_here.
Defined.

(** ** Arrays *)

Section ArrayLemmas.
Context {A B C : Type}.

Lemma amap_amap (f : A -> B) (h : B -> C) (g : grid A) :
  amap h (amap f g) = amap (h ∘ f) g.
Proof.
  unfold amap. rewrite map_map. apply map_ext. intros row.
  by rewrite map_map.
Qed.

Lemma amap_ext (f f' : A -> B) (g : grid A) :
  (forall x, f x = f' x) -> amap f g = amap f' g.
Proof.
  intros H. unfold amap. apply map_ext. intros row. by apply map_ext.
Qed.

Lemma lookup_map (f : A -> B) (l : list A) (i : nat) :
  map f l !! i = f <$> l !! i.
Proof.
  revert i. induction l as [|x l IH]; intros [|i]; simpl; auto.
Qed.

Lemma at_amap (f : A -> B) (g : grid A) (r c : nat) :
  at_ (amap f g) r c = f <$> at_ g r c.
Proof.
  unfold at_, amap. revert r.
  induction g as [|row g IH]; intros [|r]; simpl; auto.
  apply lookup_map.
Qed.

Lemma amap2_amap_r (f : A -> B -> C) (h : A -> B) (g : grid A) :
  amap2 f g (amap h g) = amap (fun x => f x (h x)) g.
Proof.
  unfold amap2, amap. induction g as [|row g IH]; [done|]. simpl.
  f_equal; [|done]. clear. induction row as [|x row IH]; [done|].
  simpl. by f_equal.
Qed.

Lemma amap_same_shape (f : A -> B) (g : grid A) : same_shape g (amap f g).
Proof.
  unfold same_shape, amap. induction g as [|row g IH]; constructor; [|done].
  by rewrite length_map.
Qed.

End ArrayLemmas.

(** ** Floats *)

Section FloatLemmas.
Local Open Scope R_scope.

Lemma signbit_sqr (d : R) : signbit (d ^ 2) = false.
Proof. unfold signbit. apply bool_decide_eq_false. nra. Qed.

Lemma signbit_double (x : R) : signbit (2 * x) = signbit x.
Proof. unfold signbit. apply bool_decide_ext. lra. Qed.

Lemma signbit_two : signbit 2 = false.
Proof. unfold signbit. apply bool_decide_eq_false. lra. Qed.

(** Multiplying twice by [d] is multiplying by its square. *)
Lemma mul_twice (x : float) (d : R) :
  (x * Fin d * Fin d)%flt = (x * Fin (d ^ 2))%flt.
Proof.
  destruct x as [r|s|]; cbn [mul]; [f_equal; ring| |done].
  destruct (decide (d = 0)) as [->|Hd]; cbn [mul].
  - rewrite decide_True by ring. done.
  - rewrite decide_False by done.
    rewrite decide_False by (apply pow_nonzero; done).
    rewrite signbit_sqr. by destruct s, (signbit d).
Qed.

(** NaN is absorbing. *)
Lemma mul_NaN_l (y : float) : (NaN * y)%flt = NaN.
Proof. by destruct y. Qed.

Lemma mul_NaN_r (x : float) : (x * NaN)%flt = NaN.
Proof. by destruct x. Qed.

Lemma div_NaN_l (y : float) : (NaN / y)%flt = NaN.
Proof. by destruct y. Qed.

(** Dividing by zero never gives a finite number. *)
Lemma div_zero (x : float) : isfinite (x / Fin 0)%flt = false.
Proof.
  destruct x as [r|s|]; simpl; [|done..].
  rewrite decide_True by done. by destruct (decide (r = 0)).
Qed.

Lemma div_zero_pos (r : R) : 0 < r -> (Fin r / Fin 0)%flt = Inf false.
Proof.
  intros Hr. simpl. rewrite decide_True by done.
  rewrite decide_False by lra. f_equal. apply bool_decide_eq_false. lra.
Qed.

(** Doubling commutes with the three scalar operations of the cells. *)
Lemma double_fixes_special (y : float) :
  isfinite y = false -> (Fin 2 * y)%flt = y.
Proof.
  destruct y as [r|s|]; [done| |done]. intros _. simpl. two_nonzero.
  rewrite signbit_two. by destruct s.
Qed.

Lemma double_mul_s (x : float) (s : R) :
  (Fin 2 * x * Fin s)%flt = (Fin 2 * (x * Fin s))%flt.
Proof.
  destruct x as [r|t|]; simpl; [f_equal; ring| |done].
  two_nonzero. rewrite signbit_two. simpl.
  destruct (decide (s = 0)); [done|]. by destruct t, (signbit s).
Qed.

Lemma double_s_mul (s : R) (x : float) :
  (Fin s * (Fin 2 * x))%flt = (Fin 2 * (Fin s * x))%flt.
Proof.
  destruct x as [r|t|]; simpl; [f_equal; ring| |done].
  two_nonzero. rewrite signbit_two. simpl.
  destruct (decide (s = 0)); [done|]. by destruct t, (signbit s).
Qed.

Lemma double_div_s (x : float) (s : R) :
  (Fin 2 * x / Fin s)%flt = (Fin 2 * (x / Fin s))%flt.
Proof.
  destruct x as [r|t|]; simpl; [| |done].
  - destruct (decide (s = 0)) as [->|Hs].
    + destruct (decide (r = 0)) as [->|Hr].
      * rewrite decide_True by ring. done.
      * rewrite decide_False by lra. simpl. two_nonzero.
        rewrite signbit_two, signbit_double. by destruct (signbit r).
    + simpl. f_equal. by field.
  - two_nonzero. rewrite signbit_two. simpl. by destruct t, (signbit s).
Qed.

End FloatLemmas.

(** ** The correction, sample by sample *)

Section CorrectionLemmas.
Local Open Scope R_scope.
Variables b2_ds b3_ds b4_ds : grid Z.
Variables e d : R.

Lemma SR_pos (i : band) : 0 < SR i.
Proof. destruct i; unfold SR, b2_sr, b3_sr, b4_sr; lra. Qed.

Lemma ESUN_pos (i : band) : 0 < ESUN i.
Proof. destruct i; unfold ESUN, b2_esun, b3_esun, b4_esun; lra. Qed.

Lemma zenith_rad_eq : sun_zenith_angle_rad e = zenith_rad e.
Proof.
  unfold sun_zenith_angle_rad, sun_zenith_angle, radians, zenith_rad. field.
Qed.

(** Masking is pointwise. *)
Lemma scene_pointwise (i : band) :
  scene b2_ds b3_ds b4_ds i = amap DN (stacked b2_ds b3_ds b4_ds i).
Proof.
  unfold scene, where_, ne0. rewrite amap2_amap_r. apply amap_ext.
  intros x. unfold DN. by destruct (x =? 0)%Z.
Qed.

Lemma scene_rad_pointwise (i : band) :
  scene_rad b2_ds b3_ds b4_ds i
  = amap (fun s => radiance i (DN s)) (stacked b2_ds b3_ds b4_ds i).
Proof.
  destruct i; unfold scene_rad, concat, b2_rad, b3_rad, b4_rad, b2_dn,
    b3_dn, b4_dn, sel, mul_s, div_s;
    by rewrite scene_pointwise, !amap_amap.
Qed.

Lemma scene_ref_pointwise (i : band) :
  scene_ref b2_ds b3_ds b4_ds e d i
  = amap (fun s => reflectance i d e (radiance i (DN s)))
      (stacked b2_ds b3_ds b4_ds i).
Proof.
  pose proof (scene_rad_pointwise i) as Hrad.
  destruct i; unfold scene_ref, concat, b2_ref, b3_ref, b4_ref;
    unfold scene_rad, concat in Hrad; rewrite Hrad;
    unfold mul_s, div_s, s_mul; rewrite !amap_amap; apply amap_ext;
    intros s; unfold compose, reflectance, pi;
    by rewrite mul_twice, zenith_rad_eq.
Qed.

Lemma DN_double (s : Z) : DN (2 * s) = (Fin 2 * DN s)%flt.
Proof.
  unfold DN. destruct (Z.eqb_spec s 0) as [->|Hs]; [done|].
  destruct (Z.eqb_spec (2 * s) 0) as [|_]; [lia|].
  unfold of_int. simpl. by rewrite mult_IZR.
Qed.

Lemma radiance_double (i : band) (x : float) :
  radiance i (Fin 2 * x)%flt = (Fin 2 * radiance i x)%flt.
Proof. unfold radiance. by rewrite double_mul_s, double_div_s. Qed.

Lemma reflectance_double (i : band) (x : float) :
  reflectance i d e (Fin 2 * x)%flt = (Fin 2 * reflectance i d e x)%flt.
Proof.
  unfold reflectance. by rewrite double_s_mul, double_mul_s, double_div_s.
Qed.

(** In real numbers: a sample other than the NoData value, under a sun
    that is not at the horizon. *)
Lemma reflectance_real (i : band) (s : Z) :
  s <> 0%Z -> cos (zenith_rad e) <> 0 ->
  reflectance i d e (radiance i (DN s))
  = Fin (PI * (IZR s * SR i / 1024) * d ^ 2 / (ESUN i * cos (zenith_rad e))).
Proof.
  intros Hs Hc. unfold reflectance, radiance, DN, of_int.
  destruct (Z.eqb_spec s 0) as [|_]; [done|]. cbn [mul div].
  rewrite decide_False by lra. cbn [mul div].
  rewrite decide_False; [done|].
  pose proof (ESUN_pos i). nra.
Qed.

End CorrectionLemmas.


(** C3: a sample equal to the NoData value 0 is missing in the masked scene
    and is still missing (NaN, not a number) in the radiance and in the
    reflectance of its band. *)
Theorem nodata_stays_missing (b2_ds b3_ds b4_ds : grid Z) (e d : R)
    (i : band) (r c : nat) :
  at_ (stacked b2_ds b3_ds b4_ds i) r c = Some 0%Z ->
  at_ (scene b2_ds b3_ds b4_ds i) r c = Some NaN
  /\ at_ (scene_rad b2_ds b3_ds b4_ds i) r c = Some NaN
  /\ at_ (scene_ref b2_ds b3_ds b4_ds e d i) r c = Some NaN.
Proof.
  intros H0.
  rewrite scene_pointwise, scene_rad_pointwise, scene_ref_pointwise.
  rewrite !at_amap, H0. simpl. unfold reflectance, radiance. done.
Qed.

Lemma nodata_stays_missing_witness :
  at_ (scene [[7; 0]; [3; 4]]%Z [[1; 2]; [3; 4]]%Z [[1; 2]; [3; 4]]%Z BAND2)
    0 1 = Some NaN
  /\ at_ (scene_rad [[7; 0]; [3; 4]]%Z [[1; 2]; [3; 4]]%Z [[1; 2]; [3; 4]]%Z
            BAND2) 0 1 = Some NaN
  /\ at_ (scene_ref [[7; 0]; [3; 4]]%Z [[1; 2]; [3; 4]]%Z [[1; 2]; [3; 4]]%Z
            45 1 BAND2) 0 1 = Some NaN.
Proof. apply nodata_stays_missing. reflexivity. Defined.

(** C6: with the date, the sun elevation and the calibration constants
    fixed, doubling the digital numbers of a band doubles its radiance and
    its reflectance, sample by sample. *)
Theorem correction_doubling (b2_ds b3_ds b4_ds : grid Z) (e d : R)
    (i : band) :
  scene_rad (doubled b2_ds) (doubled b3_ds) (doubled b4_ds) i
  = 2 ^* scene_rad b2_ds b3_ds b4_ds i
  /\ scene_ref (doubled b2_ds) (doubled b3_ds) (doubled b4_ds) e d i
     = 2 ^* scene_ref b2_ds b3_ds b4_ds e d i.
Proof.
  rewrite !scene_rad_pointwise, !scene_ref_pointwise.
  assert (stacked (doubled b2_ds) (doubled b3_ds) (doubled b4_ds) i
          = doubled (stacked b2_ds b3_ds b4_ds i)) as -> by (by destruct i).
  unfold doubled, s_mul. rewrite !amap_amap.
  split; apply amap_ext; intros s; unfold compose.
  - by rewrite DN_double, radiance_double.
  - by rewrite DN_double, radiance_double, reflectance_double.
Qed.

(** ** The sun at the horizon *)

Section PiBounds.
Import MachinQ.

Lemma Q2R_qpow (x : Q) (n : nat) : Q2R (qpow x n) = (Q2R x ^ n)%R.
Proof.
  induction n as [|n IH]; simpl.
  - unfold Q2R. simpl. lra.
  - by rewrite Q2R_mult, IH.
Qed.

Lemma Q2R_inject_nat (n : nat) : Q2R (inject_Z (Z.of_nat n)) = INR n.
Proof. unfold Q2R. simpl. rewrite INR_IZR_INZ. lra. Qed.

Lemma Q2R_ratan_term (x : Q) (n : nat) :
  Q2R (ratan_term x n) = Ratan_seq (Q2R x) n.
Proof.
  unfold ratan_term, Ratan_seq.
  rewrite Q2R_div, Q2R_qpow, Q2R_inject_nat; [done|].
  intros H. apply Qeq_eqR in H. rewrite Q2R_inject_nat in H.
  replace (Q2R 0) with 0%R in H by (unfold Q2R; simpl; lra).
  assert (0 < INR (2 * n + 1))%R by (apply lt_0_INR; lia). lra.
Qed.

Lemma Q2R_machin_term (n : nat) : Q2R (machin_term n) = PI_2_3_7_tg n.
Proof.
  unfold machin_term, PI_2_3_7_tg.
  rewrite Q2R_plus, Q2R_mult, !Q2R_ratan_term.
  replace (Q2R 2) with 2%R by (unfold Q2R; simpl; lra).
  replace (Q2R (1 # 3)) with (/ 3)%R by (unfold Q2R; simpl; lra).
  replace (Q2R (1 # 7)) with (/ 7)%R by (unfold Q2R; simpl; lra).
  done.
Qed.

Lemma Q2R_sign (n : nat) : Q2R (sign n) = ((-1) ^ n)%R.
Proof.
  induction n as [|n IH].
  - unfold Q2R. simpl. lra.
  - unfold sign in *. rewrite Nat.even_succ, <- Nat.negb_even.
    destruct (Nat.even n); simpl in *; unfold Q2R in *; simpl in *; lra.
Qed.

Lemma Q2R_machin_sum (n : nat) :
  Q2R (machin_sum n) = sum_f_R0 (tg_alt PI_2_3_7_tg) n.
Proof.
  induction n as [|n IH].
  - simpl. unfold tg_alt. rewrite Q2R_machin_term. simpl. lra.
  - change (machin_sum (S n))
      with (machin_sum n + sign (S n) * machin_term (S n))%Q.
    by rewrite Q2R_plus, Q2R_mult, IH, Q2R_sign, Q2R_machin_term.
Qed.

(** [math.pi] is below pi, by less than 1.3e-16. *)
Lemma PI_lower : (7074237752028440 / 2251799813685248 < PI)%R.
Proof.
  pose proof (proj1 (PI_2_3_7_ineq 8)) as H.
  rewrite <- Q2R_machin_sum in H.
  assert (Hq : (7074237752028440 # 2251799813685248
                < 4 * machin_sum (S (2 * 8)))%Q)
    by (vm_compute; reflexivity).
  apply Qlt_Rlt in Hq. rewrite Q2R_mult in Hq.
  replace (Q2R 4) with 4%R in Hq by (unfold Q2R; simpl; lra).
  unfold Q2R at 1 in Hq. cbn [Qnum Qden] in Hq.
  unfold Rdiv. lra.
Qed.

Lemma PI_upper :
  (PI < 7074237752028440 / 2251799813685248 + 13 / 10 ^ 17)%R.
Proof.
  pose proof (proj2 (PI_2_3_7_ineq 9)) as H.
  rewrite <- Q2R_machin_sum in H.
  assert (Hq : (4 * machin_sum (2 * 9)
                < (7074237752028440 # 2251799813685248)
                  + (13 # 100000000000000000))%Q)
    by (vm_compute; reflexivity).
  apply Qlt_Rlt in Hq. rewrite Q2R_mult, Q2R_plus in Hq.
  replace (Q2R 4) with 4%R in Hq by (unfold Q2R; simpl; lra).
  unfold Q2R at 2 3 in Hq. cbn [Qnum Qden] in Hq.
  unfold Rdiv. lra.
Qed.

End PiBounds.

Section Horizon.
Import Binary64.
Local Open Scope R_scope.
Variables b2_ds b3_ds b4_ds : grid Z.
Variable d : R.

(** At elevation 0 the zenith angle is the double 90.0 and its value in
    radians the double 0x1.921fb54442d18p+0, whichever the sign of the
    zero. *)
Lemma zenith_rad_horizon (neg : bool) :
  Liss4Double.sun_zenith_angle_rad (S754_zero neg)
  = S754_finite false 7074237752028440 (-52).
Proof. destruct neg; vm_compute; reflexivity. Qed.

Lemma zenith_rad_horizon_value :
  B2R (S754_finite false 7074237752028440 (-52))
  = 7074237752028440 / 4503599627370496.
Proof.
  unfold B2R, pow2.
  change (2 ^ 52)%Z with 4503599627370496%Z. reflexivity.
Qed.

(** This double is below pi / 2, by less than 1e-16: its cosine is positive
    and tiny. *)
Lemma cos_horizon_bounds :
  0 < cos (B2R (S754_finite false 7074237752028440 (-52))) < / 10 ^ 16.
Proof.
  rewrite zenith_rad_horizon_value.
  pose proof PI_lower as Hl. pose proof PI_upper as Hu.
  set (x := 7074237752028440 / 4503599627370496) in *.
  assert (Hx : x = 7074237752028440 / 2251799813685248 / 2)
    by (unfold x; lra).
  split.
  - apply cos_gt_0; lra.
  - rewrite <- sin_shift.
    apply Rlt_trans with (PI / 2 - x); [apply sin_lt_x; lra|]. lra.
Qed.

Lemma math_cos_horizon (neg : bool) :
  exists c,
    math_cos (Liss4Double.sun_zenith_angle_rad (S754_zero neg)) = ok (Fin c)
    /\ 0 < c < / 10 ^ 16.
Proof.
  rewrite zenith_rad_horizon. eexists. split; [reflexivity|].
  apply cos_horizon_bounds.
Qed.

(** The reflectance of a sample over a divisor [ESUN * c] that is not 0. *)
Lemma reflectance_over (i : band) (c : R) (s : Z) :
  c <> 0 ->
  (Fin PI * radiance i (DN s) * Fin d * Fin d / (Fin (ESUN i) * Fin c))%flt
  = if (s =? 0)%Z then NaN
    else Fin (PI * (IZR s * SR i / 1024) * d * d / (ESUN i * c)).
Proof.
  intros Hc. unfold radiance, DN, Float.of_int.
  destruct (s =? 0)%Z; [done|]. cbn [Float.mul Float.div].
  rewrite decide_False by lra. cbn [Float.mul Float.div].
  rewrite decide_False; [done|].
  pose proof (ESUN_pos i). nra.
Qed.

(** The reflectance cell of a band, once [math.cos] has returned. *)
Lemma band_ref_double (e : spec_float) (c : R) (i : band) :
  math_cos (Liss4Double.sun_zenith_angle_rad e) = ok (Fin c) -> c <> 0 ->
  Liss4Double.band_ref b2_ds b3_ds b4_ds e d i
  = ok (amap (fun s => if (s =? 0)%Z then NaN
                       else Fin (PI * (IZR s * SR i / 1024) * d * d
                                 / (ESUN i * c)))
          (stacked b2_ds b3_ds b4_ds i)).
Proof.
  intros Hcos Hc.
  pose proof (scene_rad_pointwise b2_ds b3_ds b4_ds i) as Hrad.
  destruct i; unfold Liss4Double.band_ref, Liss4Double.b2_ref, Liss4Double.b3_ref,
    Liss4Double.b4_ref, Liss4Double.divisor;
    rewrite Hcos; cbn [Py.bind Py.ok]; f_equal;
    unfold scene_rad, concat in Hrad; rewrite Hrad;
    unfold Liss4Double.div_f, mul_s, s_mul; rewrite !amap_amap;
    apply amap_ext; intros s; unfold compose, pi;
    by rewrite <- (reflectance_over _ c s Hc).
Qed.

Lemma scene_ref_double (e : spec_float) (c : R) :
  math_cos (Liss4Double.sun_zenith_angle_rad e) = ok (Fin c) -> c <> 0 ->
  exists ref,
    Liss4Double.scene_ref b2_ds b3_ds b4_ds e d = ok ref
    /\ forall i,
         ref i = amap (fun s => if (s =? 0)%Z then NaN
                               else Fin (PI * (IZR s * SR i / 1024) * d * d
                                         / (ESUN i * c)))
                   (stacked b2_ds b3_ds b4_ds i).
Proof.
  intros Hcos Hc.
  pose proof (band_ref_double e c BAND2 Hcos Hc) as H2.
  pose proof (band_ref_double e c BAND3 Hcos Hc) as H3.
  pose proof (band_ref_double e c BAND4 Hcos Hc) as H4.
  unfold Liss4Double.band_ref in H2, H3, H4. unfold Liss4Double.scene_ref.
  rewrite H2, H3, H4. cbn [Py.bind Py.ok]. eexists. split; [reflexivity|].
  by intros [].
Qed.

End Horizon.

(** C7: at a sun elevation of exactly 0 degrees the reflectance cells divide
    by no zero.  The zenith angle in radians is the double
    0x1.921fb54442d18p+0, just below pi / 2 (whichever the sign of the
    zero); [math.cos] returns for it a positive number below 1e-16, so the
    divisor [ESUN * cos] of every band is not 0.  No guard and no error
    branch is involved: the cells return, and a sample of the reflectance is
    NaN where the source sample is the NoData value and the finite number
    [pi * radiance * d * d / (ESUN * cos)] elsewhere, never an infinity. *)
Theorem horizon_reflectance_finite (b2_ds b3_ds b4_ds : grid Z) (d : R)
    (i : band) (neg : bool) :
  Liss4Double.sun_zenith_angle_rad (S754_zero neg)
  = S754_finite false 7074237752028440 (-52)
  /\ exists c,
       Binary64.math_cos (Liss4Double.sun_zenith_angle_rad (S754_zero neg))
       = ok (Fin c)
       /\ (0 < c < / 10 ^ 16)%R
       /\ Liss4Double.divisor (S754_zero neg) (ESUN i) = ok (Fin (ESUN i * c))
       /\ (ESUN i * c <> 0)%R
       /\ exists ref,
            Liss4Double.scene_ref b2_ds b3_ds b4_ds (S754_zero neg) d = ok ref
            /\ same_shape (stacked b2_ds b3_ds b4_ds i) (ref i)
            /\ (forall r k s,
                  at_ (stacked b2_ds b3_ds b4_ds i) r k = Some s ->
                  at_ (ref i) r k
                  = Some (if (s =? 0)%Z then NaN
                          else Fin (PI * (IZR s * SR i / 1024) * d * d
                                    / (ESUN i * c))%R))
            /\ (forall r k x, at_ (ref i) r k = Some x ->
                  x <> Inf false /\ x <> Inf true).
Proof.
  split; [apply zenith_rad_horizon|].
  destruct (math_cos_horizon neg) as (c & Hcos & Hc).
  exists c. split_and!; [done|lra|lra| | |].
  - unfold Liss4Double.divisor. by rewrite Hcos.
  - pose proof (ESUN_pos i). nra.
  - destruct (scene_ref_double b2_ds b3_ds b4_ds d (S754_zero neg) c Hcos)
      as (ref & Href & Hpt); [lra|].
    exists ref. split_and!; [done| | |].
    + rewrite Hpt. apply amap_same_shape.
    + intros r k s Hs. by rewrite Hpt, at_amap, Hs.
    + intros r k x. rewrite Hpt, at_amap.
      destruct (at_ (stacked b2_ds b3_ds b4_ds i) r k) as [s|]; [|done].
      intros [= <-]. by destruct (s =? 0)%Z.
Qed.

(** At elevation 0, for the digital number 7 of band 2 and the Earth-Sun
    distance 1: the cosine and the divisor are not 0, and the sample of the
    reflectance is a finite number above 1e13, not an infinity. *)
Lemma horizon_division_counterexample :
  exists c ref x,
    Binary64.math_cos (Liss4Double.sun_zenith_angle_rad (S754_zero false))
    = ok (Fin c)
    /\ c <> 0%R
    /\ (b2_esun * c <> 0)%R
    /\ Liss4Double.b2_ref [[7; 0]]%Z [[1; 2]]%Z [[1; 2]]%Z (S754_zero false) 1
       = ok ref
    /\ at_ ref 0 0 = Some (Fin x)
    /\ (10 ^ 13 < x)%R
    /\ isfinite (Fin x) = true.
Proof.
  destruct (math_cos_horizon false) as (c & Hcos & Hc).
  assert (Hne : (b2_esun * c <> 0)%R) by (unfold b2_esun; nra).
  pose proof (band_ref_double [[7; 0]]%Z [[1; 2]]%Z [[1; 2]]%Z 1
                (S754_zero false) c BAND2 Hcos) as Href.
  unfold Liss4Double.band_ref in Href. rewrite Href by lra.
  exists c. eexists. eexists.
  split_and!; [done|lra|done|reflexivity|reflexivity| |done].
  pose proof PI_lower as Hpi. unfold SR, ESUN, b2_sr, b2_esun.
  apply Rmult_lt_reg_r with (181.89 * c)%R; [lra|].
  replace (PI * (7 * 53.0 / 1024) * 1 * 1 / (181.89 * c) * (181.89 * c))%R
    with (PI * (7 * 53.0 / 1024))%R by (field; lra).
  assert (10 ^ 13 * c < / 1000)%R.
  { apply Rmult_lt_reg_l with (10 ^ 3)%R; [lra|].
    replace (10 ^ 3 * (10 ^ 13 * c))%R with (10 ^ 16 * c)%R by ring.
    replace (10 ^ 3 * / 1000)%R with 1%R by field.
    apply Rmult_lt_reg_l with (/ 10 ^ 16)%R; [lra|].
    replace (/ 10 ^ 16 * (10 ^ 16 * c))%R with c by (field; lra). lra. }
  nra.
Qed.

(** ** Evaluation order *)

Section Schedules.
Context {A B : Type}.
Implicit Types (src : grid A) (out : grid B).

Lemma same_shape_at src out (r c : nat) :
  same_shape src out -> is_Some (at_ src r c) <-> is_Some (at_ out r c).
Proof.
  unfold same_shape, at_. intros H. revert r.
  induction H as [|row row' g h Hlen _ IH]; intros [|r]; simpl; auto.
  - by split; intros [? ?].
  - by split; intros [? ?].
  - rewrite !lookup_lt_is_Some. by rewrite Hlen.
Qed.

Lemma same_shape_trans {C} src out (out' : grid C) :
  same_shape src out -> same_shape out out' -> same_shape src out'.
Proof.
  unfold same_shape. intros H. revert out'.
  induction H as [|row row' g h Hlen _ IH]; intros out' H'; inversion H';
    subst; constructor; [congruence|auto].
Qed.

(** Two grids of one shape with the same samples are equal. *)
Lemma grid_eq (g h : grid B) :
  same_shape g h -> (forall r c, at_ g r c = at_ h r c) -> g = h.
Proof.
  unfold same_shape, at_. intros H.
  induction H as [|row row' g h Hlen _ IH]; intros Hat; [done|]. f_equal.
  - apply list_eq. intros c. apply (Hat 0%nat c).
  - apply IH. intros r c. apply (Hat (S r) c).
Qed.

Lemma write_same_shape out (r c : nat) (x : B) :
  same_shape out (write out r c x).
Proof.
  unfold same_shape, write. destruct (out !! r) as [row|] eqn:Hr.
  - apply Forall2_lookup. intros j.
    rewrite list_lookup_insert. case_decide as Hj.
    + destruct Hj as [<- _]. rewrite Hr. constructor.
      by rewrite length_insert.
    + destruct (out !! j); by constructor.
  - apply Forall2_lookup. intros j. destruct (out !! j); by constructor.
Qed.

Lemma at_write out (r0 c0 r c : nat) (x : B) :
  at_ (write out r0 c0 x) r c
  = if decide (r = r0 /\ c = c0) then const x <$> at_ out r c else at_ out r c.
Proof.
  unfold at_, write. destruct (out !! r0) as [row|] eqn:Hr.
  - rewrite list_lookup_insert. case_decide as Hj.
    + destruct Hj as [<- Hlt]. rewrite Hr. simpl.
      rewrite list_lookup_insert.
      destruct (decide (c = c0)) as [->|Hc].
      * rewrite (decide_True (P := r0 = r0 /\ c0 = c0)) by done.
        destruct (row !! c0) eqn:Hc0; simpl.
        -- rewrite decide_True; [done|]. split; [done|].
           apply lookup_lt_is_Some. eauto.
        -- rewrite decide_False; [done|]. intros [_ Hl].
           apply lookup_lt_is_Some in Hl. rewrite Hc0 in Hl.
           by destruct Hl.
      * rewrite (decide_False (P := r0 = r0 /\ c = c0))
          by (intros [_ ?]; done).
        by rewrite decide_False by (intros [-> _]; done).
    + destruct (decide (r = r0)) as [->|Hne].
      * exfalso. apply Hj. split; [done|].
        apply lookup_lt_is_Some. eauto.
      * by rewrite decide_False by (intros [? _]; done).
  - case_decide as Hj; [|done]. destruct Hj as [-> ->]. by rewrite Hr.
Qed.

(** After a run, the positions the schedule lists hold the transformed
    samples and the others hold what the buffer held. *)
Lemma run_schedule_at (f : A -> B) src (schedule : list (nat * nat)) out :
  same_shape src out ->
  same_shape src (run_schedule f src schedule out)
  /\ forall r c,
       at_ (run_schedule f src schedule out) r c
       = if decide ((r, c) ∈ schedule) then f <$> at_ src r c
         else at_ out r c.
Proof.
  revert out. induction schedule as [|[r0 c0] schedule IH]; intros out Hs.
  - split; [done|]. intros r c. rewrite decide_False; [done|].
    apply not_elem_of_nil.
  - unfold run_schedule. simpl. fold (run_schedule f src schedule).
    set (out1 := match at_ src r0 c0 with
                 | Some x => write out r0 c0 (f x)
                 | None => out
                 end).
    assert (same_shape src out1) as Hs1.
    { unfold out1. destruct (at_ src r0 c0); [|done].
      eapply same_shape_trans; [done|]. apply write_same_shape. }
    destruct (IH out1 Hs1) as [Hshape Hat]. split; [done|].
    intros r c. rewrite Hat.
    destruct (decide ((r, c) ∈ schedule)) as [Hin|Hnin].
    + rewrite decide_True; [done|]. by apply list_elem_of_further.
    + destruct (decide ((r, c) = (r0, c0))) as [[= -> ->]|Hne].
      * rewrite decide_True by apply list_elem_of_here.
        unfold out1. destruct (at_ src r0 c0) as [x|] eqn:Hx; simpl.
        -- rewrite at_write, decide_True by done.
           assert (is_Some (at_ out r0 c0)) as [y ->]; [|done].
           apply (same_shape_at src out r0 c0 Hs). eauto.
        -- assert (at_ out r0 c0 = None) as ->; [|done].
           apply eq_None_not_Some. intros Hy.
           apply (same_shape_at src out r0 c0 Hs) in Hy.
           rewrite Hx in Hy. by destruct Hy.
      * rewrite decide_False.
        2:{ intros [Heq|Hin]%elem_of_cons; done. }
        unfold out1. destruct (at_ src r0 c0); [|done].
        rewrite at_write, decide_False; [done|]. by intros [-> ->].
Qed.

(** Any schedule that covers the grid produces the pointwise image. *)
Lemma run_schedule_covers (f : A -> B) src (schedule : list (nat * nat)) out :
  covers schedule src -> same_shape src out ->
  run_schedule f src schedule out = amap f src.
Proof.
  intros Hc Hs. destruct (run_schedule_at f src schedule out Hs) as [Hsh Hat].
  apply grid_eq.
  - clear -Hsh. revert Hsh. generalize (run_schedule f src schedule out).
    unfold same_shape, amap. intros g H.
    induction H as [|row row' src g Hlen _ IH]; constructor; [|done].
    by rewrite length_map.
  - intros r c. rewrite Hat, at_amap. case_decide as Hin; [done|].
    destruct (at_ src r c) as [x|] eqn:Hx.
    + exfalso. apply Hin, Hc. rewrite Hx. eauto.
    + simpl. apply eq_None_not_Some. intros Hy.
      apply (same_shape_at src out r c Hs) in Hy.
      rewrite Hx in Hy. by destruct Hy.
Qed.

End Schedules.

(** C8: the reflectance of a band is the image of its source raster under
    one per-sample function, so computing the samples in any order, from any
    initial contents of the output buffer, gives the output of the pipeline:
    two runs under two schedules that each visit every sample agree. *)
Theorem correction_order_independent (b2_ds b3_ds b4_ds : grid Z) (e d : R)
    (i : band) (schedule schedule' : list (nat * nat))
    (out out' : grid float) :
  let src := stacked b2_ds b3_ds b4_ds i in
  let px := fun s => reflectance i d e (radiance i (DN s)) in
  covers schedule src -> covers schedule' src ->
  same_shape src out -> same_shape src out' ->
  run_schedule px src schedule out = scene_ref b2_ds b3_ds b4_ds e d i
  /\ run_schedule px src schedule' out' = run_schedule px src schedule out.
Proof.
  intros src px Hc Hc' Hs Hs'.
  rewrite !run_schedule_covers by done.
  split; [|done]. symmetry. apply scene_ref_pointwise.
Qed.

Lemma correction_order_independent_witness :
  let src := stacked [[7; 0]; [3; 4]]%Z [[1; 2]; [3; 4]]%Z [[1; 2]; [3; 4]]%Z
               BAND2 in
  let px := fun s => reflectance BAND2 1 45 (radiance BAND2 (DN s)) in
  run_schedule px src [(0, 0); (0, 1); (1, 0); (1, 1)]%nat
    [[NaN; NaN]; [NaN; NaN]]
  = scene_ref [[7; 0]; [3; 4]]%Z [[1; 2]; [3; 4]]%Z [[1; 2]; [3; 4]]%Z 45 1
      BAND2
  /\ run_schedule px src [(1, 1); (0, 1); (1, 0); (1, 1); (0, 0)]%nat
       [[Fin 0; Fin 1]; [Inf false; NaN]]
     = run_schedule px src [(0, 0); (0, 1); (1, 0); (1, 1)]%nat
         [[NaN; NaN]; [NaN; NaN]].
Proof.
  apply correction_order_independent.
  - intros [|[|r]] [|[|c]] [x Hx]; try discriminate Hx;
      repeat first [apply list_elem_of_here | apply list_elem_of_further].
  - intros [|[|r]] [|[|c]] [x Hx]; try discriminate Hx;
      repeat first [apply list_elem_of_here | apply list_elem_of_further].
  - repeat constructor.
  - repeat constructor.
Defined.

(** ** Reading the file line by line *)

Import Text.

Section ReadLines.

Lemma readlines_nil_inv (s : string) : readlines s = [] -> s = "".
Proof.
  destruct s as [|c s]; [done|]. simpl.
  destruct (Ascii.eqb c "010"); [done|]. by destruct (readlines s).
Qed.

Lemma endswith_cons (c a : ascii) (s : string) :
  s <> "" -> endswith c (String a s) = endswith c s.
Proof. by destruct s. Qed.

Lemma endswith_app_char (c : ascii) (s : string) :
  endswith c (s +:+ String c "") = true.
Proof.
  induction s as [|a s IH]; [simpl; apply Ascii.eqb_refl|].
  rewrite app_cons, endswith_cons; [done|]. by destruct s.
Qed.

(** The text up to and including a newline is read on its own. *)
Lemma readlines_app_nl (t t2 : string) :
  readlines (t +:+ String nl t2) = readlines (t +:+ String nl "") ++ readlines t2.
Proof.
  induction t as [|c t IH]; [done|]. rewrite !app_cons. simpl.
  destruct (Ascii.eqb c "010"); [by rewrite IH|]. rewrite IH.
  destruct (readlines (t +:+ String nl "")) eqn:Hr; [|done].
  apply readlines_nil_inv in Hr. by destruct t.
Qed.

Lemma concat_readlines (text : string) : concat_str (readlines text) = text.
Proof.
  induction text as [|c s IH]; [done|]. simpl.
  destruct (Ascii.eqb c "010").
  - simpl. by rewrite IH.
  - destruct (readlines s) as [|l ls] eqn:Hr.
    + apply readlines_nil_inv in Hr. by subst.
    + simpl in *. rewrite app_cons. by f_equal.
Qed.

Lemma readlines_shape (text : string) :
  Forall (fun l => exists body, count nl body = 0%nat
                     /\ (l = body +:+ String nl "" \/ (l = body /\ body <> "")))
    (readlines text).
Proof.
  induction text as [|c s IH]; [constructor|]. simpl.
  destruct (Ascii.eqb_spec c "010") as [->|Hc].
  - constructor; [|done]. exists "". split; [done|]. by left.
  - destruct (readlines s) as [|l ls].
    + constructor; [|done]. exists (String c ""). split.
      * simpl. by rewrite (proj2 (Ascii.eqb_neq c nl)).
      * by right.
    + inversion IH as [|? ? (body & Hb & Hl) Hls]; subst.
      constructor; [|done]. exists (String c body). split.
      * simpl. by rewrite (proj2 (Ascii.eqb_neq c nl)).
      * destruct Hl as [->|[-> _]]; [by left|by right].
Qed.

Lemma readlines_inner_newline (text : string) (i : nat) (l : string) :
  readlines text !! i = Some l ->
  (S i < length (readlines text))%nat ->
  endswith nl l = true.
Proof.
  revert i l. induction text as [|c s IH]; intros i l; [done|]. simpl.
  destruct (Ascii.eqb_spec c "010") as [->|Hc].
  - destruct i as [|i]; simpl.
    + by intros [= <-].
    + intros Hl Hlen. apply (IH i); [done|lia].
  - destruct (readlines s) as [|l0 ls]; simpl.
    + destruct i; simpl; [lia|done].
    + destruct i as [|i]; simpl.
      * intros [= <-] Hlen.
        assert (endswith nl l0 = true) as H0 by (apply (IH 0%nat); [done|simpl; lia]).
        rewrite endswith_cons; [done|]. by destruct l0.
      * intros Hl Hlen. apply (IH (S i)); [done|simpl; lia].
Qed.

End ReadLines.

(** X1: iterating over the file loses nothing and cuts only after
    newlines: the lines put end to end are the text, no line has a newline
    inside or is empty, and every line but the last ends with a newline. *)
Theorem readlines_partition_of_text (text : string) :
  concat_str (readlines text) = text
  /\ Forall (fun l => exists body, count nl body = 0%nat
                        /\ (l = body +:+ String nl "" \/ (l = body /\ body <> "")))
       (readlines text)
  /\ (forall i l, readlines text !! i = Some l ->
        (S i < length (readlines text))%nat -> endswith nl l = true).
Proof.
  split; [apply concat_readlines|]. split; [apply readlines_shape|].
  apply readlines_inner_newline.
Qed.

(** ** More on [split] and [strip] *)

Section SplitStrip.

Lemma partition_spec (c : ascii) (s k v : string) :
  partition c s = Some (k, v) ->
  s = k +:+ String c v /\ count c k = 0%nat.
Proof.
  revert k. induction s as [|a s IH]; intros k; [done|]. simpl.
  destruct (Ascii.eqb_spec a c) as [->|Hac].
  - by intros [= <- <-].
  - destruct (partition c s) as [[k' v']|]; [|done]. intros [= <- <-].
    destruct (IH k' eq_refl) as [-> Hk]. split; [done|]. simpl.
    by rewrite (proj2 (Ascii.eqb_neq a c)).
Qed.

Lemma count_sep_app (c : ascii) (k v : string) :
  count c (k +:+ String c v) = S (count c k + count c v).
Proof. rewrite count_app. simpl. rewrite Ascii.eqb_refl. lia. Qed.

Lemma app_char_inv (t : string) (c c' : ascii) :
  t +:+ String c' "" = String c "" -> t = "" /\ c' = c.
Proof.
  destruct t as [|a t]; [by intros [= ->]|]. rewrite app_cons.
  intros [= _ H]. by destruct t.
Qed.

Lemma lstrip_decomp (s : string) :
  exists a, blank a = true /\ s = a +:+ lstrip s
    /\ forall c t, lstrip s = String c t -> isspace c = false.
Proof.
  induction s as [|x s IH].
  - exists "". by split_and!.
  - simpl. destruct (isspace x) eqn:Hx.
    + destruct IH as (a & Ha & Hs & Hc). exists (String x a).
      split_and!; [simpl; by rewrite Hx|by rewrite app_cons, <- Hs|done].
    + exists "". split_and!; [done..|]. by intros c t [= <- _].
Qed.

Lemma rstrip_decomp (s : string) :
  exists b, blank b = true /\ s = rstrip s +:+ b
    /\ forall t c, rstrip s = t +:+ String c "" -> isspace c = false.
Proof.
  induction s as [|x s IH].
  - exists "". split_and!; [done..|]. intros [|a t] c; done.
  - destruct IH as (b & Hb & Hs & Hc). simpl.
    destruct (rstrip s) as [|y r] eqn:Hr.
    + rewrite app_empty_l in Hs. subst b. destruct (isspace x) eqn:Hx.
      * exists (String x s). split_and!; [simpl; by rewrite Hx|done|].
        intros [|a t] c; done.
      * exists s. split_and!; [done..|].
        intros t c [-> ->]%eq_sym%app_char_inv. done.
    + exists b. split_and!; [done|by rewrite app_cons, <- Hs|].
      intros [|a t] c; [done|]. rewrite app_cons. intros [= _ Ht].
      by apply (Hc t).
Qed.

(** What [strip] returns is the text without a run of whitespace at each
    end. *)
Lemma strip_decomp (s : string) :
  exists a b, blank a = true /\ blank b = true /\ s = a +:+ strip s +:+ b.
Proof.
  destruct (lstrip_decomp s) as (a & Ha & Hs & _).
  destruct (rstrip_decomp (lstrip s)) as (b & Hb & Hl & _).
  exists a, b. split_and!; [done..|]. unfold strip.
  by rewrite <- Hl.
Qed.

Lemma strip_idemp (s : string) : strip (strip s) = strip s.
Proof.
  destruct (strip_decomp s) as (a & b & Ha & Hb & Hs).
  rewrite Hs at 2. by rewrite strip_padded.
Qed.

Lemma count_strip_le (c : ascii) (s : string) :
  (count c (strip s) <= count c s)%nat.
Proof.
  destruct (strip_decomp s) as (a & b & _ & _ & Hs).
  rewrite Hs at 2. rewrite !count_app. lia.
Qed.

End SplitStrip.

(** X2: the two-target unpacking of [line.split('=')] succeeds with the
    pair [(k, v)] exactly when the line is [k], an [=], then [v], with no
    other [=] in it. *)
Theorem unpack_split_iff (line k v : string) :
  unpack2 (split "="%char line) = ok (k, v)
  <-> line = k +:+ String "="%char v
      /\ count "="%char k = 0%nat /\ count "="%char v = 0%nat.
Proof.
  split.
  - intros Hu. pose proof (split_length "="%char line) as Hlen.
    destruct (split "="%char line) as [|x [|y [|z l]]] eqn:Hs; try done.
    injection Hu as -> ->. simpl in Hlen.
    assert (count "="%char line = 1%nat) as H1 by lia.
    destruct (split_one _ _ H1) as (k' & v' & Hp & Hs').
    rewrite Hs in Hs'. injection Hs' as <- <-.
    destruct (partition_spec _ _ _ _ Hp) as [-> Hk].
    rewrite count_sep_app in H1. split_and!; [done..|lia].
  - intros (-> & Hk & Hv).
    by rewrite split_app_sep, !split_none.
Qed.

(** X3: [strip] removes whitespace at the two ends and nothing else: the
    text is a run of whitespace, the result, and a run of whitespace; the
    result neither starts nor ends with whitespace, and stripping it again
    changes nothing. *)
Theorem strip_trims_ends (s : string) :
  (exists a b, blank a = true /\ blank b = true /\ s = a +:+ strip s +:+ b)
  /\ (forall c t, strip s = String c t -> isspace c = false)
  /\ (forall t c, strip s = t +:+ String c "" -> isspace c = false)
  /\ strip (strip s) = strip s.
Proof.
  split; [apply strip_decomp|]. split; [|split; [|apply strip_idemp]].
  - intros c t Hs. unfold strip in Hs.
    destruct (lstrip_decomp s) as (_ & _ & _ & Hc).
    destruct (rstrip_decomp (lstrip s)) as (b & _ & Hl & _).
    rewrite Hs, app_cons in Hl. by apply (Hc c (t +:+ b)).
  - intros t c Hs. unfold strip in Hs.
    destruct (rstrip_decomp (lstrip s)) as (_ & _ & _ & Hc).
    by apply (Hc t).
Qed.

(** ** More on the metadata cell *)

Section CellLemmas.
Implicit Types (line : string) (lines : list string).
Implicit Types (m : gmap string string).

Lemma parse_lines_app lines lines' m :
  parse_lines (lines ++ lines') m
  = bind (parse_lines lines m) (parse_lines lines').
Proof.
  revert m. induction lines as [|line lines IH]; intros m; [done|].
  simpl. rewrite !parse_lines_cons.
  destruct (parse_line line m) as [e|m1]; simpl; auto.
Qed.

Lemma parse_lines_ok_valid lines m m' :
  parse_lines lines m = ok m' -> valid lines.
Proof.
  intros Hp. destruct (decide (valid lines)) as [|Hn]; [done|].
  by rewrite parse_lines_invalid in Hp.
Qed.

(** What a normal end of the parser says about the dict. *)
Lemma parse_metadata_lookup (text : string) m :
  parse_metadata text = ok m ->
  valid (readlines text)
  /\ forall k, m !! k = last_occurrence k (entries (readlines text)).
Proof.
  intros Hp. pose proof (parse_lines_ok_valid _ _ _ Hp) as Hv.
  split; [done|]. intros k.
  destruct (parse_lines_valid _ ∅ Hv) as (m' & Hm' & Hlook).
  unfold parse_metadata in Hp. rewrite Hm' in Hp. injection Hp as <-.
  rewrite Hlook, lookup_empty.
  by destruct (last_occurrence k (entries (readlines text))).
Qed.

Lemma last_occurrence_elem k v (kvs : list (string * string)) :
  last_occurrence k kvs = Some v -> (k, v) ∈ kvs.
Proof.
  induction kvs as [|[k' v'] kvs IH]; [done|]. simpl.
  destruct (last_occurrence k kvs) as [w|].
  - intros [= <-]. apply list_elem_of_further. by apply IH.
  - case_decide as Hk; [|done]. intros [= <-]. subst.
    apply list_elem_of_here.
Qed.

Lemma last_occurrence_NoDup k v (kvs : list (string * string)) :
  NoDup kvs.*1 -> (k, v) ∈ kvs -> last_occurrence k kvs = Some v.
Proof.
  induction kvs as [|[k' v'] kvs IH]; [by intros _ ?%elem_of_nil|].
  simpl. intros [Hnin Hnd]%NoDup_cons [[= -> ->]|Hin]%elem_of_cons.
  - destruct (last_occurrence k' kvs) as [w|] eqn:Hw.
    + exfalso. apply Hnin. apply list_elem_of_fmap.
      exists (k', w). split; [done|]. by apply last_occurrence_elem.
    + by rewrite decide_True.
  - by rewrite (IH Hnd Hin).
Qed.

(** A pair of a valid line: trimmed, and free of [=]. *)
Lemma entry_trimmed line k v :
  count "="%char line = 1%nat -> entry line = Some (k, v) ->
  strip k = k /\ strip v = v
  /\ count "="%char k = 0%nat /\ count "="%char v = 0%nat.
Proof.
  unfold entry. intros H1 He.
  destruct (partition "="%char line) as [[k0 v0]|] eqn:Hp; [|done].
  injection He as <- <-.
  destruct (partition_spec _ _ _ _ Hp) as [-> Hk].
  rewrite count_sep_app in H1.
  pose proof (count_strip_le "="%char k0).
  pose proof (count_strip_le "="%char v0).
  split_and!; [apply strip_idemp|apply strip_idemp|lia|lia].
Qed.

Lemma parse_lines_size lines m m' :
  parse_lines lines m = ok m' -> (size m' <= size m + length lines)%nat.
Proof.
  revert m. induction lines as [|line lines IH]; intros m.
  - intros [= <-]. simpl. lia.
  - rewrite parse_lines_cons.
    destruct (decide (count "="%char line = 1%nat)) as [H1|H1].
    + destruct (parse_line_entry line m H1) as (k & v & _ & ->). simpl.
      intros Hp%IH. rewrite map_size_insert in Hp. simpl.
      destruct (m !! k); simpl in Hp; unfold id in Hp; lia.
    + by rewrite parse_line_err.
Qed.

End CellLemmas.

(** X4: after a normal end of the parser every stored key and value is
    trimmed (stripping it again changes nothing) and contains no [=]. *)
Theorem stored_pairs_trimmed (text : string) (m : gmap string string)
    (k v : string) :
  parse_metadata text = ok m ->
  m !! k = Some v ->
  strip k = k /\ strip v = v
  /\ count "="%char k = 0%nat /\ count "="%char v = 0%nat.
Proof.
  intros [Hv Hlook]%parse_metadata_lookup Hk. rewrite Hlook in Hk.
  apply last_occurrence_elem, list_elem_of_omap in Hk as (line & Hin & He).
  unfold valid in Hv. rewrite Forall_forall in Hv.
  apply (entry_trimmed line); [by apply Hv|done].
Qed.

Lemma stored_pairs_trimmed_witness :
  strip "Sun Elevation" = "Sun Elevation" /\ strip "45.32" = "45.32"
  /\ count "="%char "Sun Elevation" = 0%nat /\ count "="%char "45.32" = 0%nat.
Proof.
  apply (stored_pairs_trimmed "  Sun Elevation =  45.32
" (<["Sun Elevation" := "45.32"]> ∅)); reflexivity.
Defined.

(** X5: after a normal end of the parser the keys of the dict are exactly
    the trimmed keys of the lines, so there are at most as many as lines. *)
Theorem parsed_keys (text : string) (m : gmap string string) :
  parse_metadata text = ok m ->
  dom m = list_to_set (entries (readlines text)).*1
  /\ (size m <= length (readlines text))%nat.
Proof.
  intros Hp. split.
  - destruct (parse_metadata_lookup _ _ Hp) as [_ Hlook].
    apply set_eq. intros k.
    by rewrite elem_of_dom, elem_of_list_to_set, <- last_occurrence_Some, Hlook.
  - apply parse_lines_size in Hp. by rewrite map_size_empty in Hp.
Qed.

Lemma parsed_keys_witness :
  dom (<["A" := "3"]> (<["B" := "2"]> (∅ : gmap string string)))
  = list_to_set (entries (readlines "A = 1
B= 2
A=3")).*1
  /\ (size (<["A" := "3"]> (<["B" := "2"]> (∅ : gmap string string)))
      <= length (readlines "A = 1
B= 2
A=3"))%nat.
Proof. apply parsed_keys. reflexivity. Defined.

(** X6: parsing composes along the file: the text after a newline is parsed
    into the dict that the text up to this newline produced, and is not
    read at all when that first part raises. *)
Theorem parse_metadata_app (t t2 : string) :
  parse_metadata (t +:+ String nl t2)
  = bind (parse_metadata (t +:+ String nl "")) (parse_lines (readlines t2)).
Proof.
  unfold parse_metadata. by rewrite readlines_app_nl, parse_lines_app.
Qed.

(** X7: when no key occurs twice, the order of the lines does not matter:
    two files with the same lines in different orders give the same
    outcome. *)
Theorem parse_metadata_permutation (text text' : string) :
  readlines text ≡ₚ readlines text' ->
  NoDup (entries (readlines text)).*1 ->
  parse_metadata text = parse_metadata text'.
Proof.
  intros Hperm Hnd.
  destruct (decide (valid (readlines text))) as [Hv|Hn].
  - assert (valid (readlines text')) as Hv'.
    { unfold valid in *. by rewrite <- Hperm. }
    destruct (parse_lines_valid _ ∅ Hv) as (m & Hm & Hlook).
    destruct (parse_lines_valid _ ∅ Hv') as (m' & Hm' & Hlook').
    unfold parse_metadata. rewrite Hm, Hm'. f_equal. apply map_eq. intros k.
    rewrite Hlook, Hlook', !lookup_empty.
    assert (entries (readlines text) ≡ₚ entries (readlines text')) as He.
    { unfold entries. by rewrite Hperm. }
    assert (NoDup (entries (readlines text')).*1) as Hnd'.
    { by rewrite <- He. }
    destruct (last_occurrence k (entries (readlines text))) as [v|] eqn:Hk.
    + apply last_occurrence_elem in Hk. rewrite He in Hk.
      by rewrite (last_occurrence_NoDup _ _ _ Hnd' Hk).
    + destruct (last_occurrence k (entries (readlines text'))) as [v'|] eqn:Hk';
        [|done].
      apply last_occurrence_elem in Hk'. rewrite <- He in Hk'.
      by rewrite (last_occurrence_NoDup _ _ _ Hnd Hk') in Hk.
  - assert (~ valid (readlines text')) as Hn'.
    { unfold valid in *. by rewrite <- Hperm. }
    unfold parse_metadata. by rewrite !parse_lines_invalid.
Qed.

Lemma parse_metadata_permutation_witness :
  parse_metadata "A= 1
B= 2
" = parse_metadata "B= 2
A= 1
".
Proof.
  apply parse_metadata_permutation.
  - simpl. apply perm_swap.
  - apply (bool_decide_unpack _). reflexivity.
Defined.

Lemma run_loop_stops_witness :
  run_loop (["A= 1
"; "B= 2
"] ++ "no separator
" :: ["A= 3
"]) ∅ = (<["B" := "2"]> (<["A" := "1"]> ∅), Some ValueError).
Proof. apply run_loop_stops; [reflexivity|simpl; lia]. Defined.

(** X9: the outcome of the whole metadata cell.  A line without exactly one
    [=] gives [ValueError], whether or not the scene identifier is there;
    otherwise the cell ends normally exactly when some line has the key
    [OTSProductID], the identifier being the value of the last such line,
    and raises [KeyError] when none has (as on an empty file). *)
Theorem metadata_cell_outcome (text : string) :
  (~ valid (readlines text) -> metadata_cell text = raise ValueError)
  /\ (valid (readlines text) ->
      forall scene_id,
        last_occurrence "OTSProductID" (entries (readlines text))
        = Some scene_id
        <-> exists m, metadata_cell text = ok (m, scene_id))
  /\ (valid (readlines text) ->
      last_occurrence "OTSProductID" (entries (readlines text)) = None
      <-> metadata_cell text = raise KeyError).
Proof.
  unfold metadata_cell. split_and!.
  - intros Hn. unfold parse_metadata. by rewrite parse_lines_invalid.
  - intros Hv scene_id.
    destruct (parse_lines_valid _ ∅ Hv) as (m & Hm & _).
    assert (parse_metadata text = ok m) as Hp by done.
    destruct (parse_metadata_lookup _ _ Hp) as [_ Hlook].
    rewrite Hp. simpl. unfold getitem. rewrite Hlook.
    destruct (last_occurrence "OTSProductID" (entries (readlines text)));
      simpl; split.
    + intros [= <-]. by exists m.
    + by intros (m' & [= _ <-]).
    + done.
    + by intros (m' & ?).
  - intros Hv.
    destruct (parse_lines_valid _ ∅ Hv) as (m & Hm & _).
    assert (parse_metadata text = ok m) as Hp by done.
    destruct (parse_metadata_lookup _ _ Hp) as [_ Hlook].
    rewrite Hp. simpl. unfold getitem. rewrite Hlook.
    by destruct (last_occurrence "OTSProductID" (entries (readlines text))).
Qed.

(** X10: an empty line anywhere in the file, first, in the middle or left
    after the last newline, makes the parser raise [ValueError]. *)
Theorem parse_metadata_empty_line (t1 t2 : string) :
  parse_metadata (t1 +:+ String nl (String nl t2)) = raise ValueError
  /\ parse_metadata (String nl t2) = raise ValueError.
Proof.
  assert (forall pre post, ~ valid (pre ++ String nl "" :: post)) as Hn.
  { intros pre post Hv. unfold valid in Hv. rewrite Forall_app in Hv.
    destruct Hv as [_ Hv]. inversion Hv as [|? ? H1 _]. done. }
  unfold parse_metadata. split.
  - rewrite readlines_app_nl. simpl. by apply parse_lines_invalid.
  - simpl. by apply (parse_lines_invalid _ _ (Hn [] _)).
Qed.

(** X11: the key is not checked for being empty: a line whose text before
    the [=] is only whitespace binds the empty key. *)
Theorem parse_line_empty_key (a v : string) (m : gmap string string) :
  blank a = true -> count "="%char v = 0%nat ->
  parse_line (a +:+ String "="%char v) m = ok (<["" := strip v]> m).
Proof.
  intros Ha Hv. unfold parse_line.
  rewrite split_app_sep, !split_none by (done || by apply blank_count).
  simpl. do 2 f_equal.
  pose proof (strip_padded "" "" a eq_refl Ha) as Hp.
  by rewrite app_empty_l in Hp.
Qed.

Lemma parse_line_empty_key_witness :
  parse_line (" " +:+ String "="%char " 7
") ∅ = ok (<["" := strip " 7
"]> ∅).
Proof. apply parse_line_empty_key; reflexivity. Defined.

(** ** The extraction cell *)

Import Unzip.

Section UnzipLemmas.

Lemma foldername_cons (info : ZipInfo) (infolist : list ZipInfo) :
  foldername (info :: infolist)
  = if is_dir info then inr (filename info) else foldername infolist.
Proof.
  unfold foldername. rewrite filter_cons.
  destruct (is_dir info) eqn:Hd.
  - by rewrite decide_True.
  - by rewrite decide_False.
Qed.

Lemma foldername_is_dir (infolist : list ZipInfo) (name : string) :
  foldername infolist = inr name -> endswith "/"%char name = true.
Proof.
  induction infolist as [|info infolist IH]; [done|].
  rewrite foldername_cons. destruct (is_dir info) eqn:Hd; [|done].
  by intros [= <-].
Qed.

(** Joining onto a name that ends with a slash adds no separator. *)
Lemma join_after_slash (a b : string) :
  endswith "/"%char a = true -> startswith "/"%char b = false ->
  join a b = a +:+ b.
Proof.
  intros Ha Hb. unfold join. rewrite Hb, Ha. by rewrite orb_true_r.
Qed.

End UnzipLemmas.


(** X13: the paths of the metadata file and of the three rasters are the
    folder name directly followed by the file name, with no separator
    added, the folder name ending with its slash. *)
Theorem scene_paths (infolist : list ZipInfo) (folder : string) :
  foldername infolist = inr folder ->
  metadata_filepath folder = folder +:+ "BAND_META.txt"
  /\ b2_path folder = folder +:+ "BAND2.tif"
  /\ b3_path folder = folder +:+ "BAND3.tif"
  /\ b4_path folder = folder +:+ "BAND4.tif".
Proof.
  intros Hd%foldername_is_dir.
  unfold metadata_filepath, b2_path, b3_path, b4_path.
  by rewrite !join_after_slash.
Qed.

Lemma scene_paths_witness :
  metadata_filepath "RAF20FEB2023/" = "RAF20FEB2023/" +:+ "BAND_META.txt"
  /\ b2_path "RAF20FEB2023/" = "RAF20FEB2023/" +:+ "BAND2.tif"
  /\ b3_path "RAF20FEB2023/" = "RAF20FEB2023/" +:+ "BAND3.tif"
  /\ b4_path "RAF20FEB2023/" = "RAF20FEB2023/" +:+ "BAND4.tif".
Proof.
  apply (scene_paths [{| filename := "readme.txt" |};
                      {| filename := "RAF20FEB2023/" |};
                      {| filename := "RAF20FEB2023/BAND2.tif" |}]).
  reflexivity.
Defined.

(** ** More on the correction *)

Section CorrectionFacts.
Local Open Scope R_scope.
Variables b2_ds b3_ds b4_ds : grid Z.
Variables e d : R.

Lemma cos_zenith_sin : cos (sun_zenith_angle_rad e) = sin (radians e).
Proof.
  unfold sun_zenith_angle_rad, sun_zenith_angle, radians.
  replace ((90 - e) * (PI / 180)) with (PI / 2 - e * (PI / 180)) by field.
  apply cos_shift.
Qed.

(** The reflectance of a sample other than the NoData value, as a multiple
    of its digital number. *)
Lemma reflectance_linear (i : band) (r c : nat) (s : Z) :
  cos (sun_zenith_angle_rad e) <> 0 ->
  at_ (stacked b2_ds b3_ds b4_ds i) r c = Some s -> s <> 0%Z ->
  at_ (scene_ref b2_ds b3_ds b4_ds e d i) r c
  = Some (Fin (IZR s * (PI * SR i * d ^ 2
                        / (1024 * ESUN i * cos (sun_zenith_angle_rad e))))).
Proof.
  intros Hcos Hs Hne. rewrite scene_ref_pointwise, at_amap, Hs. simpl.
  rewrite zenith_rad_eq in *. rewrite reflectance_real by done.
  do 2 f_equal. pose proof (ESUN_pos i). field. split; lra.
Qed.

Lemma radiance_value (i : band) (r c : nat) (s : Z) :
  at_ (stacked b2_ds b3_ds b4_ds i) r c = Some s -> s <> 0%Z ->
  at_ (scene_rad b2_ds b3_ds b4_ds i) r c = Some (Fin (IZR s * SR i / 1024)).
Proof.
  intros Hs Hne. rewrite scene_rad_pointwise, at_amap, Hs. simpl.
  unfold radiance, DN, of_int.
  destruct (Z.eqb_spec s 0) as [|_]; [done|]. cbn [mul div].
  by rewrite decide_False by lra.
Qed.

Lemma nodata_masked (i : band) (r c : nat) :
  at_ (stacked b2_ds b3_ds b4_ds i) r c = Some 0%Z ->
  at_ (scene_ref b2_ds b3_ds b4_ds e d i) r c = Some NaN.
Proof.
  intros Hs. by rewrite scene_ref_pointwise, at_amap, Hs.
Qed.

Lemma sq_pos : d <> 0 -> 0 < d ^ 2.
Proof. intros Hd. destruct (Rtotal_order d 0) as [?|[?|?]]; [nra|done|nra]. Qed.

End CorrectionFacts.

Import Georef.

Lemma amap_on_grid {A B} (f : A -> B) (ny nx : nat) (g : grid A) :
  on_grid ny nx g -> on_grid ny nx (amap f g).
Proof.
  intros [Hy Hx]. unfold on_grid, amap. split; [by rewrite length_map|].
  apply Forall_map. apply (Forall_impl _ _ _ Hx).
  intros row Hrow. by rewrite length_map.
Qed.

Lemma one_grid_fills (r2 r3 r4 : raster) (i : band) :
  one_grid r2 r3 r4 ->
  on_grid (length (ycoords r2)) (length (xcoords r2))
    (stacked (values r2) (values r3) (values r4) i).
Proof.
  intros (Hy3 & Hy4 & Hx3 & Hx4 & H2 & H3 & H4). unfold fills in *.
  rewrite Hy3, Hx3 in H3. rewrite Hy4, Hx4 in H4. by destruct i.
Qed.

(** X14: for three rasters on one grid, the masked scene, the radiance and
    the reflectance of every band have the shape of that grid: as many rows
    as row coordinates and as many samples in each row as column
    coordinates, which is also the shape of the raster of the band. *)
Theorem correction_keeps_shape (r2 r3 r4 : raster) (e d : R) (i : band) :
  one_grid r2 r3 r4 ->
  let ny := length (ycoords r2) in
  let nx := length (xcoords r2) in
  (on_grid ny nx (scene (values r2) (values r3) (values r4) i)
   /\ on_grid ny nx (scene_rad (values r2) (values r3) (values r4) i)
   /\ on_grid ny nx (scene_ref (values r2) (values r3) (values r4) e d i))
  /\ same_shape (stacked (values r2) (values r3) (values r4) i)
       (scene_ref (values r2) (values r3) (values r4) e d i).
Proof.
  intros Hg ny nx. pose proof (one_grid_fills r2 r3 r4 i Hg) as Hf.
  rewrite scene_pointwise, scene_rad_pointwise, scene_ref_pointwise.
  split_and!; try (by apply amap_on_grid). apply amap_same_shape.
Qed.

Lemma correction_keeps_shape_witness :
  let r2 := {| ycoords := [10.5%R]; xcoords := [3%R; 4%R]; values := [[7; 0]]%Z |} in
  let r3 := {| ycoords := [10.5%R]; xcoords := [3%R; 4%R]; values := [[1; 2]]%Z |} in
  let r4 := {| ycoords := [10.5%R]; xcoords := [3%R; 4%R]; values := [[5; 6]]%Z |} in
  (on_grid 1%nat 2%nat (scene (values r2) (values r3) (values r4) BAND3)
   /\ on_grid 1%nat 2%nat (scene_rad (values r2) (values r3) (values r4) BAND3)
   /\ on_grid 1%nat 2%nat (scene_ref (values r2) (values r3) (values r4) 45%R 1%R BAND3))
  /\ same_shape (stacked (values r2) (values r3) (values r4) BAND3)
       (scene_ref (values r2) (values r3) (values r4) 45%R 1%R BAND3).
Proof.
  intros r2 r3 r4. apply (correction_keeps_shape r2 r3 r4 45%R 1%R BAND3).
  unfold one_grid, fills, on_grid. simpl.
  split_and!; try reflexivity; repeat constructor.
Defined.

(** X15: unless the cosine of the zenith angle is 0, the samples missing in
    the reflectance are exactly the NoData samples of the source: a sample
    is NaN if and only if its digital number is 0, and any other sample is
    a finite number. *)
Theorem missing_iff_nodata (b2_ds b3_ds b4_ds : grid Z) (e d : R)
    (i : band) (r c : nat) (s : Z) :
  cos (sun_zenith_angle_rad e) <> 0%R ->
  at_ (stacked b2_ds b3_ds b4_ds i) r c = Some s ->
  (at_ (scene_ref b2_ds b3_ds b4_ds e d i) r c = Some NaN <-> s = 0%Z)
  /\ (s <> 0%Z ->
      exists x, at_ (scene_ref b2_ds b3_ds b4_ds e d i) r c = Some (Fin x)).
Proof.
  intros Hcos Hs. split.
  - split.
    + intros Hnan. destruct (decide (s = 0%Z)) as [|Hne]; [done|].
      by rewrite (reflectance_linear _ _ _ _ _ _ _ _ _ Hcos Hs Hne) in Hnan.
    + intros ->. by apply nodata_masked.
  - intros Hne. eexists. by apply reflectance_linear.
Qed.

Lemma cos_zenith_at_90 : cos (sun_zenith_angle_rad 90) = 1%R.
Proof.
  unfold sun_zenith_angle_rad, sun_zenith_angle, radians.
  replace ((90 - 90) * (PI / 180))%R with 0%R by lra. apply cos_0.
Qed.

Lemma missing_iff_nodata_witness :
  (at_ (scene_ref [[7; 0]]%Z [[1; 2]]%Z [[1; 2]]%Z 90 1 BAND2) 0 1 = Some NaN
   <-> 0%Z = 0%Z)
  /\ (0%Z <> 0%Z ->
      exists x,
        at_ (scene_ref [[7; 0]]%Z [[1; 2]]%Z [[1; 2]]%Z 90 1 BAND2) 0 1
        = Some (Fin x)).
Proof.
  apply missing_iff_nodata; [|reflexivity].
  rewrite cos_zenith_at_90. lra.
Defined.

(** X17: with the sun above the horizon (elevation strictly between 0 and
    180 degrees) and a nonzero distance, a positive digital number gets a
    finite, positive reflectance, and of two positive digital numbers of a
    band the larger gets the strictly larger reflectance. *)
Theorem reflectance_positive_increasing (b2_ds b3_ds b4_ds : grid Z)
    (e d : R) (i : band) (r c r' c' : nat) (s s' : Z) :
  (0 < e < 180)%R -> d <> 0%R ->
  at_ (stacked b2_ds b3_ds b4_ds i) r c = Some s ->
  at_ (stacked b2_ds b3_ds b4_ds i) r' c' = Some s' ->
  (0 < s < s')%Z ->
  exists x x',
    at_ (scene_ref b2_ds b3_ds b4_ds e d i) r c = Some (Fin x)
    /\ at_ (scene_ref b2_ds b3_ds b4_ds e d i) r' c' = Some (Fin x')
    /\ (0 < x < x')%R.
Proof.
  intros He Hd Hs Hs' Hlt.
  assert (0 < cos (sun_zenith_angle_rad e))%R as Hcos.
  { rewrite cos_zenith_sin. unfold radians. pose proof PI_RGT_0.
    apply sin_gt_0; nra. }
  set (K := (PI * SR i * d ^ 2
             / (1024 * ESUN i * cos (sun_zenith_angle_rad e)))%R).
  assert (0 < K)%R as HK.
  { unfold K. pose proof (SR_pos i). pose proof (ESUN_pos i).
    pose proof PI_RGT_0. pose proof (sq_pos d Hd).
    apply Rdiv_lt_0_compat;
      (apply Rmult_lt_0_compat; [apply Rmult_lt_0_compat|]; lra). }
  exists (IZR s * K)%R, (IZR s' * K)%R. split_and!.
  - apply reflectance_linear; [lra|done|lia].
  - apply reflectance_linear; [lra|done|lia].
  - apply Rmult_lt_0_compat; [apply IZR_lt; lia|done].
  - apply Rmult_lt_compat_r; [done|apply IZR_lt; lia].
Qed.

Lemma reflectance_positive_increasing_witness :
  exists x x',
    at_ (scene_ref [[7; 9]]%Z [[1; 2]]%Z [[1; 2]]%Z 45 1 BAND2) 0 0
    = Some (Fin x)
    /\ at_ (scene_ref [[7; 9]]%Z [[1; 2]]%Z [[1; 2]]%Z 45 1 BAND2) 0 1
       = Some (Fin x')
    /\ (0 < x < x')%R.
Proof.
  apply (reflectance_positive_increasing _ _ _ _ _ _ _ _ _ _ 7%Z 9%Z);
    [lra|lra|reflexivity|reflexivity|lia].
Defined.

(** X19: no band reads another band's raster: for rasters on one grid,
    replacing the rasters of the two other bands by rasters on the same
    grid leaves the radiance and the reflectance of a band unchanged. *)
Theorem bands_are_independent (r2 r3 r4 r2' r3' r4' : raster) (e d : R) :
  one_grid r2 r3 r4 -> one_grid r2' r3' r4' ->
  ycoords r2' = ycoords r2 -> xcoords r2' = xcoords r2 ->
  (b2_rad (values r2) (values r3') (values r4')
   = b2_rad (values r2) (values r3) (values r4)
   /\ b3_rad (values r2') (values r3) (values r4')
      = b3_rad (values r2) (values r3) (values r4)
   /\ b4_rad (values r2') (values r3') (values r4)
      = b4_rad (values r2) (values r3) (values r4))
  /\ (b2_ref (values r2) (values r3') (values r4') e d
      = b2_ref (values r2) (values r3) (values r4) e d
      /\ b3_ref (values r2') (values r3) (values r4') e d
         = b3_ref (values r2) (values r3) (values r4) e d
      /\ b4_ref (values r2') (values r3') (values r4) e d
         = b4_ref (values r2) (values r3) (values r4) e d).
Proof.
  intros _ _ _ _.
  split; split_and!.
  - apply (eq_trans (scene_rad_pointwise _ _ _ BAND2)).
    symmetry. apply (scene_rad_pointwise (values r2) (values r3) (values r4) BAND2).
  - apply (eq_trans (scene_rad_pointwise _ _ _ BAND3)).
    symmetry. apply (scene_rad_pointwise (values r2) (values r3) (values r4) BAND3).
  - apply (eq_trans (scene_rad_pointwise _ _ _ BAND4)).
    symmetry. apply (scene_rad_pointwise (values r2) (values r3) (values r4) BAND4).
  - apply (eq_trans (scene_ref_pointwise _ _ _ _ _ BAND2)).
    symmetry.
    apply (scene_ref_pointwise (values r2) (values r3) (values r4) e d BAND2).
  - apply (eq_trans (scene_ref_pointwise _ _ _ _ _ BAND3)).
    symmetry.
    apply (scene_ref_pointwise (values r2) (values r3) (values r4) e d BAND3).
  - apply (eq_trans (scene_ref_pointwise _ _ _ _ _ BAND4)).
    symmetry.
    apply (scene_ref_pointwise (values r2) (values r3) (values r4) e d BAND4).
Qed.

Lemma bands_are_independent_witness :
  let r2 := {| ycoords := [10.5%R]; xcoords := [3%R; 4%R]; values := [[7; 0]]%Z |} in
  let r3 := {| ycoords := [10.5%R]; xcoords := [3%R; 4%R]; values := [[1; 2]]%Z |} in
  let r4 := {| ycoords := [10.5%R]; xcoords := [3%R; 4%R]; values := [[5; 6]]%Z |} in
  let r2' := {| ycoords := [10.5%R]; xcoords := [3%R; 4%R]; values := [[0; 0]]%Z |} in
  let r3' := {| ycoords := [10.5%R]; xcoords := [3%R; 4%R]; values := [[9; 9]]%Z |} in
  let r4' := {| ycoords := [10.5%R]; xcoords := [3%R; 4%R]; values := [[8; 1]]%Z |} in
  (b2_rad (values r2) (values r3') (values r4')
   = b2_rad (values r2) (values r3) (values r4)
   /\ b3_rad (values r2') (values r3) (values r4')
      = b3_rad (values r2) (values r3) (values r4)
   /\ b4_rad (values r2') (values r3') (values r4)
      = b4_rad (values r2) (values r3) (values r4))
  /\ (b2_ref (values r2) (values r3') (values r4') 45%R 1%R
      = b2_ref (values r2) (values r3) (values r4) 45%R 1%R
      /\ b3_ref (values r2') (values r3) (values r4') 45%R 1%R
         = b3_ref (values r2) (values r3) (values r4) 45%R 1%R
      /\ b4_ref (values r2') (values r3') (values r4) 45%R 1%R
         = b4_ref (values r2) (values r3) (values r4) 45%R 1%R).
Proof.
  intros r2 r3 r4 r2' r3' r4'.
  apply (bands_are_independent r2 r3 r4 r2' r3' r4' 45%R 1%R);
    try reflexivity;
    unfold one_grid, fills, on_grid; simpl;
    split_and!; try reflexivity; repeat constructor.
Defined.

(** X20: a digital number between 1 and 1023 gets a radiance strictly
    between 0 and the saturation radiance of its band. *)
Theorem radiance_below_saturation (b2_ds b3_ds b4_ds : grid Z) (i : band)
    (r c : nat) (s : Z) :
  at_ (stacked b2_ds b3_ds b4_ds i) r c = Some s ->
  (0 < s < 1024)%Z ->
  exists x,
    at_ (scene_rad b2_ds b3_ds b4_ds i) r c = Some (Fin x)
    /\ (0 < x < SR i)%R.
Proof.
  intros Hs [H0 H1]. exists (IZR s * SR i / 1024)%R.
  split; [apply radiance_value; [done|lia]|].
  pose proof (SR_pos i). apply IZR_lt in H0, H1. nra.
Qed.

Lemma radiance_below_saturation_witness :
  exists x,
    at_ (scene_rad [[7; 0]]%Z [[1; 2]]%Z [[1; 2]]%Z BAND2) 0 0 = Some (Fin x)
    /\ (0 < x < SR BAND2)%R.
Proof.
  apply (radiance_below_saturation _ _ _ _ _ _ 7%Z); [reflexivity|lia].
Defined.

(** ** The output cells *)

Import Output.

(** X21: end to end, for three rasters on one grid, the layers handed to
    the raster writer are three, named [BAND2], [BAND3], [BAND4] in this
    order, and the layer of a band is the reflectance computed sample by
    sample from the raster of that band; the selection of the three names
    never raises. *)
Theorem output_layers_are_reflectances (r2 r3 r4 : raster) (e d : R) :
  one_grid r2 r3 r4 ->
  output_layers (values r2) (values r3) (values r4) e d
  = ok [("BAND2", amap (fun s => reflectance BAND2 d e (radiance BAND2 (DN s)))
                    (values r2));
        ("BAND3", amap (fun s => reflectance BAND3 d e (radiance BAND3 (DN s)))
                    (values r3));
        ("BAND4", amap (fun s => reflectance BAND4 d e (radiance BAND4 (DN s)))
                    (values r4))].
Proof.
  intros _.
  pose proof (scene_ref_pointwise (values r2) (values r3) (values r4) e d
                BAND2) as H2.
  pose proof (scene_ref_pointwise (values r2) (values r3) (values r4) e d
                BAND3) as H3.
  pose proof (scene_ref_pointwise (values r2) (values r3) (values r4) e d
                BAND4) as H4.
  unfold output_layers, to_dataset. cbn [map label].
  rewrite H2, H3, H4. reflexivity.
Qed.

Lemma output_layers_are_reflectances_witness :
  let r2 := {| ycoords := [10.5%R]; xcoords := [3%R; 4%R]; values := [[7; 0]]%Z |} in
  let r3 := {| ycoords := [10.5%R]; xcoords := [3%R; 4%R]; values := [[1; 2]]%Z |} in
  let r4 := {| ycoords := [10.5%R]; xcoords := [3%R; 4%R]; values := [[5; 6]]%Z |} in
  output_layers (values r2) (values r3) (values r4) 45%R 1%R
  = ok [("BAND2", amap (fun s => reflectance BAND2 1%R 45%R (radiance BAND2 (DN s)))
                    (values r2));
        ("BAND3", amap (fun s => reflectance BAND3 1%R 45%R (radiance BAND3 (DN s)))
                    (values r3));
        ("BAND4", amap (fun s => reflectance BAND4 1%R 45%R (radiance BAND4 (DN s)))
                    (values r4))].
Proof.
  intros r2 r3 r4. apply (output_layers_are_reflectances r2 r3 r4 45%R 1%R).
  unfold one_grid, fills, on_grid. simpl.
  split_and!; try reflexivity; repeat constructor.
Defined.

(** ** Appending a line *)

Lemma readlines_single (s : string) :
  count nl s = 0%nat -> s <> "" -> readlines s = [s].
Proof.
  unfold nl. induction s as [|c s IH]; [done|]. simpl.
  destruct (Ascii.eqb c "010"); [done|]. intros Hc _.
  destruct s as [|c' s']; [done|]. by rewrite IH.
Qed.

(** X22: adding a last line [k=v] (with no other [=] and no newline in it)
    after a text that ends with a newline and parses to [m] gives [m] with
    the trimmed key bound to the trimmed value: the new line wins over any
    earlier line with that key, and the other keys are as in [m]. *)
Theorem parse_metadata_append_line (t k v : string)
    (m : gmap string string) :
  parse_metadata (t +:+ String nl "") = ok m ->
  count "="%char k = 0%nat -> count "="%char v = 0%nat ->
  count nl k = 0%nat -> count nl v = 0%nat ->
  parse_metadata (t +:+ String nl (k +:+ String "="%char v))
  = ok (<[strip k := strip v]> m).
Proof.
  intros Hm Hk Hv Hnk Hnv. unfold parse_metadata in *.
  rewrite readlines_app_nl, parse_lines_app, Hm. simpl.
  rewrite readlines_single.
  - rewrite parse_lines_cons. unfold parse_line.
    by rewrite split_app_sep, !split_none.
  - rewrite count_app. simpl. rewrite Hnk, Hnv. done.
  - by destruct k.
Qed.

Lemma parse_metadata_append_line_witness :
  parse_metadata ("A= 1
B= 2" +:+ String nl ("A " +:+ String "="%char " 3"))
  = ok (<[strip "A " := strip " 3"]> (<["B" := "2"]> (<["A" := "1"]> ∅))).
Proof. apply parse_metadata_append_line; reflexivity. Defined.

Lemma readlines_partition_of_text_witness :
  endswith nl "A= 1
" = true.
Proof.
  apply (proj2 (proj2 (readlines_partition_of_text "A= 1
B= 2")) 0%nat); [reflexivity|simpl; lia].
Defined.

(** ** The parser on one line, on a bad line, and on valid text *)

(** C2 (as stated it fails): splitting at the first [=] and binding the
    trimmed sides is not what the cell does on the line [a=b=c]: the first
    [=] would give the key [a] and the value [b=c], while the two-target
    unpacking of the three pieces raises [ValueError]. *)
Lemma split_first_eq_counterexample :
  partition "="%char "a=b=c" = Some ("a", "b=c")
  /\ parse_line "a=b=c" ∅ = raise ValueError
  /\ parse_line "a=b=c" ∅ <> ok (<[strip "a" := strip "b=c"]> ∅).
Proof. repeat split; done. Qed.

(** C2 (amended): let [k] and [v] be the texts before and after the first
    [=] of a line.  When the line has exactly one [=] (so [v] has none),
    the parser trims both sides and stores the trimmed pair into the
    mapping; when the value part [v] itself contains an [=], the line is
    not parsed: the two-target unpacking raises [ValueError]. *)
Theorem parse_line_single_eq (line : string) (m : gmap string string)
    (k v : string) :
  partition "="%char line = Some (k, v) ->
  (count "="%char line = 1%nat ->
   count "="%char v = 0%nat
   /\ parse_line line m = ok (<[strip k := strip v]> m))
  /\ ((1 <= count "="%char v)%nat ->
      (2 <= count "="%char line)%nat
      /\ parse_line line m = raise ValueError).
Proof.
  intros Hp. destruct (partition_spec _ _ _ _ Hp) as [Hl Hk].
  assert (count "="%char line = S (count "="%char v)) as Hc.
  { rewrite Hl, count_sep_app. lia. }
  split.
  - intros H1. split; [lia|].
    destruct (split_one _ _ H1) as (k' & v' & Hp' & Hs).
    rewrite Hp in Hp'. injection Hp' as <- <-.
    unfold parse_line. by rewrite Hs.
  - intros Hv. split; [lia|]. unfold parse_line.
    rewrite unpack2_split; [done|lia].
Qed.

Lemma parse_line_single_eq_witness :
  (count "="%char " 2326285231
" = 0%nat
   /\ parse_line "ProductID= 2326285231
" ∅ = ok (<[strip "ProductID" := strip " 2326285231
"]> ∅))
  /\ ((2 <= count "="%char "K= a=b
")%nat
      /\ parse_line "K= a=b
" (<["ProductID" := "2326285231"]> ∅) = raise ValueError).
Proof.
  split.
  - apply (proj1 (parse_line_single_eq "ProductID= 2326285231
" ∅ "ProductID" " 2326285231
" eq_refl)). reflexivity.
  - apply (proj2 (parse_line_single_eq "K= a=b
" (<["ProductID" := "2326285231"]> ∅) "K" " a=b
" eq_refl)). simpl. lia.
Defined.




Import Render.

Section Rendered.
Implicit Types (l : mline) (lines : list mline).
Implicit Types (m : gmap string string).

Lemma app_empty_r (s : string) : s +:+ "" = s.
Proof. induction s as [|c s IH]; [done|]. by rewrite app_cons, IH. Qed.












End Rendered.



(** ** Every valid text is a written text *)

Section Coverage.

Lemma last_char_app (s : string) (z : ascii) :
  last_char s = Some z -> exists t, s = t +:+ String z "".
Proof.
  induction s as [|x s IH]; [done|]. simpl. destruct s as [|y s'].
  - intros [= ->]. by exists "".
  - intros [t Ht]%IH. exists (String x t). by rewrite app_cons, <- Ht.
Qed.

Lemma trimmed_strip (s : string) : trimmed (strip s) = true.
Proof.
  destruct (lstrip_decomp s) as (_ & _ & _ & Hfirst).
  destruct (rstrip_decomp (lstrip s)) as (b & _ & Hl & Hlast).
  fold (strip s) in Hl, Hlast. unfold trimmed.
  destruct (strip s) as [|c t] eqn:Hs; [done|]. apply andb_true_iff. split.
  - apply negb_true_iff. rewrite app_cons in Hl. by apply (Hfirst c (t +:+ b)).
  - destruct (last_char (String c t)) as [z|] eqn:Hz; [|done].
    apply negb_true_iff. apply last_char_app in Hz as [t' Ht'].
    by apply (Hlast t').
Qed.

Lemma count_without (c : ascii) (s : string) :
  count c s = 0%nat -> without c s = true.
Proof. unfold without. by intros ->. Qed.

(** The pieces around a word: whitespace, the trimmed word, whitespace. *)
Lemma word_of (s : string) :
  count "="%char s = 0%nat -> count nl s = 0%nat ->
  exists a b, pad a = true /\ pad b = true /\ word (strip s) = true
              /\ s = a +:+ strip s +:+ b.
Proof.
  intros He Hn. destruct (strip_decomp s) as (a & b & Ha & Hb & Hs).
  pose proof Hs as Hc. apply (f_equal (count nl)) in Hc.
  rewrite !count_app, Hn in Hc.
  pose proof (count_strip_le "="%char s).
  exists a, b. unfold pad, word. rewrite Ha, Hb, trimmed_strip.
  rewrite !count_without by lia. done.
Qed.

Lemma line_rendered (body : string) :
  count nl body = 0%nat -> count "="%char body = 1%nat ->
  exists l, wf l = true /\ render_line l = body.
Proof.
  intros Hn H1. destruct (split_one _ _ H1) as (k0 & v0 & Hp & _).
  destruct (partition_spec _ _ _ _ Hp) as [-> Hk].
  rewrite count_sep_app in H1. rewrite count_app in Hn. simpl in Hn.
  destruct (word_of k0) as (a & b & Ha & Hb & Hwk & Hk0); [lia..|].
  destruct (word_of v0) as (c & e & Hc & He & Hwv & Hv0); [lia..|].
  exists {| lead := a; mkey := strip k0; before_eq := b; after_eq := c;
            mvalue := strip v0; trail := e |}.
  split.
  - unfold wf. simpl. by rewrite Ha, Hb, Hc, He, Hwk, Hwv.
  - unfold render_line. simpl. rewrite Hk0 at 2. rewrite Hv0 at 2.
    by rewrite !str_app_assoc.
Qed.

Lemma endswith_count (c : ascii) (s : string) :
  endswith c s = true -> (1 <= count c s)%nat.
Proof.
  induction s as [|a s IH]; [done|]. simpl. destruct s as [|b s'].
  - intros ->. simpl. lia.
  - intros H%IH. destruct (Ascii.eqb a c); lia.
Qed.

Lemma lines_rendered (ls : list string) :
  Forall (fun l => exists body, count nl body = 0%nat
                     /\ (l = body +:+ String nl "" \/ (l = body /\ body <> "")))
    ls ->
  (forall i l, ls !! i = Some l -> (S i < length ls)%nat ->
     endswith nl l = true) ->
  valid ls ->
  exists final_newline lines,
    forallb wf lines = true /\ render final_newline lines = concat_str ls.
Proof.
  induction ls as [|l rest IH]; intros Hshape Hinner Hvalid.
  - by exists true, [].
  - inversion Hshape as [|? ? (body & Hn & Hl) Hshape']; subst.
    inversion Hvalid as [|? ? H1 Hvalid']; subst.
    destruct rest as [|l2 rest'].
    + destruct Hl as [->|[-> _]].
      * rewrite count_app in H1. simpl in H1.
        destruct (line_rendered body) as (ml & Hwf & Hr); [done|lia|].
        exists true, [ml]. simpl. rewrite Hwf, Hr. by rewrite app_empty_r.
      * destruct (line_rendered body) as (ml & Hwf & Hr); [done..|].
        exists false, [ml]. simpl. by rewrite Hwf, Hr.
    + assert (l = body +:+ String nl "") as ->.
      { destruct Hl as [->|[-> _]]; [done|].
        assert (endswith nl body = true) as He
          by (apply (Hinner 0%nat); [done|simpl; lia]).
        apply endswith_count in He. lia. }
      rewrite count_app in H1. simpl in H1.
      destruct (line_rendered body) as (ml & Hwf & Hr); [done|lia|].
      destruct IH as (fnl & lines' & Hwf' & Hr'); [done| |done|].
      { intros i l Hi Hlen. apply (Hinner (S i)); [done|simpl in *; lia]. }
      destruct lines' as [|m2 lines''].
      { exfalso. simpl in Hr'.
        inversion Hvalid' as [|? ? H2 _]; subst.
        destruct l2; [done|]. by rewrite app_cons in Hr'. }
      exists fnl, (ml :: m2 :: lines''). split.
      * simpl in *. by rewrite Hwf.
      * change (render fnl (ml :: m2 :: lines''))
          with (render_line ml +:+ String nl (render fnl (m2 :: lines''))).
        rewrite Hr, Hr'.
        change (concat_str ((body +:+ String nl "") :: l2 :: rest'))
          with ((body +:+ String nl "") +:+ concat_str (l2 :: rest')).
        by rewrite str_app_assoc.
Qed.

(** A text in which every line has exactly one [=] is a written text. *)
Lemma valid_text_rendered (text : string) :
  valid (readlines text) ->
  exists final_newline lines,
    forallb wf lines = true /\ render final_newline lines = text.
Proof.
  intros Hv.
  destruct (lines_rendered (readlines text)) as (fnl & lines & Hwf & Hr);
    [apply readlines_shape|apply readlines_inner_newline|done|].
  exists fnl, lines. by rewrite Hr, concat_readlines.
Qed.

End Coverage.

Lemma metadata_cell_outcome_witness :
  (exists m, metadata_cell "OTSProductID= OLD
DateOfPass= 20-FEB-2023
OTSProductID = RAF20FEB2023
" = ok (m, "RAF20FEB2023"))
  /\ metadata_cell "DateOfPass= 20-FEB-2023
SunElevationAtCenter= 45.32
" = raise KeyError
  /\ metadata_cell "OTSProductID= RAF20FEB2023
DateOfPass
" = raise ValueError.
Proof.
  split_and!.
  - apply (proj1 (proj2 (metadata_cell_outcome "OTSProductID= OLD
DateOfPass= 20-FEB-2023
OTSProductID = RAF20FEB2023
"))); [|reflexivity].
    unfold valid. simpl. repeat (constructor; [reflexivity|]). constructor.
  - apply (proj2 (proj2 (metadata_cell_outcome "DateOfPass= 20-FEB-2023
SunElevationAtCenter= 45.32
"))); [|reflexivity].
    unfold valid. simpl. repeat (constructor; [reflexivity|]). constructor.
  - apply (proj1 (metadata_cell_outcome "OTSProductID= RAF20FEB2023
DateOfPass
")).
    unfold valid. simpl. intros Hv. inversion Hv as [|? ? _ Hv']; subst.
    inversion Hv' as [|? ? H1 _]; subst. simpl in H1. lia.
Defined.
